(** * store/connection.go: Connection and TxStateChange

    A shallow embedding of the [store] package's connection handle and of
    its one-shot transaction-state detector.  Go objects reached through
    pointers live in a heap of records keyed by address, so that several
    detectors holding the same [*Connection] really share it. *)

From Stdlib Require Import ZArith Lia List DecimalString DecimalPos DecimalN.
From stdpp Require Import base option strings gmap.

Local Open Scope string_scope.
Local Open Scope Z_scope.

(** ** Values from the Go runtime and standard library *)

(** A Go pointer: an address, the absence of a heap cell playing [nil]. *)
Definition addr := positive.

(** Go's [error] interface: [None] is [nil]. *)
Definition error := option string.

(** [time.Time], as the instant it denotes: seconds and nanoseconds since
    January 1, year 1, 00:00:00 UTC. *)
Module time.

Record Time := mkTime { sec : Z; nsec : Z }.

(** [time.Time{}] *)
Definition zero : Time := {| sec := 0; nsec := 0 |}.

(** [func (t Time) IsZero() bool] *)
Definition IsZero (t : Time) : bool := (sec t =? 0) && (nsec t =? 0).

End time.

(** The engine session [*sdb.Conn] (package [db], outside this file). *)
Module sdb.

(** Modelled from the spec: the database-engine collaborator, which the
    package only consults through a transaction-active predicate and a
    foreign-key-constraint-mode predicate; the second can fail. *)
Record Conn := mkConn {
  txActive : bool;            (* what TransactionActive() reports *)
  fkEnabled : bool;           (* first result of FKConstraints() *)
  fkErr : error               (* second result of FKConstraints() *)
}.

Definition TransactionActive (e : Conn) : bool := txActive e.
Definition FKConstraints (e : Conn) : bool * error := (fkEnabled e, fkErr e).

End sdb.

(** ** Data model *)

(** [type Connection struct].  A [sync.Mutex] is a flag: [true] while
    held.  The logger takes no part in any behaviour modelled here. *)
Record Connection := mkConnection {
  db : addr;                    (* *sdb.Conn *)
  store : addr;                 (* *Store *)
  id : N;                       (* uint64 *)
  timeMu : bool;
  createdAt : time.Time;
  lastUsedAt : time.Time;
  txStateMu : bool;
  txStartedAt : time.Time
}.

(** [type TxStateChange struct] *)
Record TxStateChange := mkTxStateChange {
  c : addr;                     (* *Connection *)
  tx : bool;
  done : bool
}.

(** The part of the process state the package reads and writes: the three
    heaps, and the wall clock that [time.Now()] samples. *)
Record World := mkWorld {
  conns : gmap addr Connection;
  engines : gmap addr sdb.Conn;
  changes : gmap addr TxStateChange;
  clock : time.Time
}.

Definition set_conns (f : gmap addr Connection -> gmap addr Connection)
    (w : World) : World :=
  {| conns := f (conns w); engines := engines w;
     changes := changes w; clock := clock w |}.

Definition set_engines (f : gmap addr sdb.Conn -> gmap addr sdb.Conn)
    (w : World) : World :=
  {| conns := conns w; engines := f (engines w);
     changes := changes w; clock := clock w |}.

Definition set_changes (f : gmap addr TxStateChange -> gmap addr TxStateChange)
    (w : World) : World :=
  {| conns := conns w; engines := engines w;
     changes := f (changes w); clock := clock w |}.

Definition set_clock (now : time.Time) (w : World) : World :=
  {| conns := conns w; engines := engines w;
     changes := changes w; clock := now |}.

Definition with_txStateMu (b : bool) (cn : Connection) : Connection :=
  {| db := db cn; store := store cn; id := id cn; timeMu := timeMu cn;
     createdAt := createdAt cn; lastUsedAt := lastUsedAt cn;
     txStateMu := b; txStartedAt := txStartedAt cn |}.

Definition with_txStartedAt (t : time.Time) (cn : Connection) : Connection :=
  {| db := db cn; store := store cn; id := id cn; timeMu := timeMu cn;
     createdAt := createdAt cn; lastUsedAt := lastUsedAt cn;
     txStateMu := txStateMu cn; txStartedAt := t |}.

Definition with_done (b : bool) (ts : TxStateChange) : TxStateChange :=
  {| c := c ts; tx := tx ts; done := b |}.

(** ** Control effects: return, panic, block *)

(** How a call ends.  [Blocked] is a goroutine parked on a mutex that
    nobody will release: the call neither returns nor panics. *)
Inductive outcome (A : Type) : Type :=
| Returned (a : A)
| Panicked (msg : string)
| Blocked.
Arguments Returned {A} a.
Arguments Panicked {A} msg.
Arguments Blocked {A}.

Definition M (A : Type) : Type := World -> outcome A * World.

Definition ret {A} (a : A) : M A := fun w => (Returned a, w).

Definition bind {A B} (m : M A) (k : A -> M B) : M B :=
  fun w =>
    match m w with
    | (Returned a, w1) => k a w1
    | (Panicked msg, w1) => (Panicked msg, w1)
    | (Blocked, w1) => (Blocked, w1)
    end.

Notation "x <- m ;; k" := (bind m (fun x => k))
  (at level 100, m at next level, right associativity).
Notation "m ;;; k" := (bind m (fun _ => k))
  (at level 100, right associativity).

Definition panic {A} (msg : string) : M A := fun w => (Panicked msg, w).

Definition nil_dereference : string :=
  "invalid memory address or nil pointer dereference".

(** [defer d] around the rest of a function body: [d] runs when the body
    returns and when it panics; a panic raised by [d] itself replaces the
    pending outcome.  A body that never finishes never runs [d]. *)
Definition defer {A} (d : M unit) (body : M A) : M A :=
  fun w =>
    match body w with
    | (Blocked, w1) => (Blocked, w1)
    | (o, w1) =>
        match d w1 with
        | (Returned _, w2) => (o, w2)
        | (Panicked msg, w2) => (Panicked msg, w2)
        | (Blocked, w2) => (Blocked, w2)
        end
    end.

(** Short-circuit [&&] on effectful operands. *)
Definition andM (a b : M bool) : M bool :=
  x <- a ;; if x then b else ret false.

(** ** Heap access *)

Definition load_conn (p : addr) : M Connection :=
  fun w => match conns w !! p with
           | Some cn => (Returned cn, w)
           | None => (Panicked nil_dereference, w)
           end.

Definition load_engine (p : addr) : M sdb.Conn :=
  fun w => match engines w !! p with
           | Some e => (Returned e, w)
           | None => (Panicked nil_dereference, w)
           end.

Definition load_change (p : addr) : M TxStateChange :=
  fun w => match changes w !! p with
           | Some ts => (Returned ts, w)
           | None => (Panicked nil_dereference, w)
           end.

Definition store_conn (p : addr) (cn : Connection) : M unit :=
  fun w => (Returned tt, set_conns <[p := cn]> w).

Definition store_change (p : addr) (ts : TxStateChange) : M unit :=
  fun w => (Returned tt, set_changes <[p := ts]> w).

(** [time.Now()] *)
Definition Now : M time.Time := fun w => (Returned (clock w), w).

(** [p.txStateMu.Lock()]: taking a held mutex parks the caller. *)
Definition Lock_txStateMu (p : addr) : M unit :=
  cn <- load_conn p ;;
  if txStateMu cn then (fun w => (Blocked, w))
  else store_conn p (with_txStateMu true cn).

(** [p.txStateMu.Unlock()]: releasing a free mutex is a fatal error. *)
Definition Unlock_txStateMu (p : addr) : M unit :=
  cn <- load_conn p ;;
  if txStateMu cn then store_conn p (with_txStateMu false cn)
  else panic "sync: unlock of unlocked mutex".

(** ** Connection *)

(** [func NewConnection(c *sdb.Conn, s *Store, id uint64) *Connection] *)
Definition NewConnection (dbc s : addr) (i : N) : M addr :=
  now <- Now ;;
  fun w =>
    let p := fresh (dom (conns w)) in
    (Returned p,
     set_conns <[p := {| db := dbc; store := s; id := i;
                         timeMu := false;
                         createdAt := now;
                         lastUsedAt := time.zero;
                         txStateMu := false;
                         txStartedAt := time.zero |}]> w).

(** [func (c *Connection) ID() uint64] *)
Definition ID (p : addr) : M N :=
  cn <- load_conn p ;; ret (id cn).

(** ** TxStateChange *)

(** [func NewTxStateChange(c *Connection) *TxStateChange] *)
Definition NewTxStateChange (p : addr) : M addr :=
  cn <- load_conn p ;;
  e <- load_engine (db cn) ;;
  fun w =>
    let t := fresh (dom (changes w)) in
    (Returned t,
     set_changes <[t := {| c := p; tx := sdb.TransactionActive e;
                           done := false |}]> w).

(** [t.c.db.TransactionActive()] *)
Definition conn_TransactionActive (p : addr) : M bool :=
  cn <- load_conn p ;;
  e <- load_engine (db cn) ;;
  ret (sdb.TransactionActive e).

(** [t.c.txStartedAt.IsZero()] *)
Definition conn_txStartedAt_IsZero (p : addr) : M bool :=
  cn <- load_conn p ;; ret (time.IsZero (txStartedAt cn)).

(** [t.c.txStartedAt = v] *)
Definition assign_txStartedAt (p : addr) (v : time.Time) : M unit :=
  cn <- load_conn p ;; store_conn p (with_txStartedAt v cn).

(** [func (t *TxStateChange) CheckAndSet()] *)
Definition CheckAndSet (t : addr) : M unit :=
  ts <- load_change t ;;
  Lock_txStateMu (c ts) ;;;
  defer (Unlock_txStateMu (c ts))
  (defer (ts' <- load_change t ;; store_change t (with_done true ts'))
    (ts <- load_change t ;;
     if done ts then panic "CheckAndSet should only be called once"
     else
       start <- andM (ret (negb (tx ts)))
                  (andM (conn_TransactionActive (c ts))
                        (conn_txStartedAt_IsZero (c ts))) ;;
       if start then
         now <- Now ;; assign_txStartedAt (c ts) now
       else
         stop <- andM (ret (tx ts))
                   (andM (b <- conn_TransactionActive (c ts) ;; ret (negb b))
                         (b <- conn_txStartedAt_IsZero (c ts) ;; ret (negb b))) ;;
         if stop then assign_txStartedAt (c ts) time.zero
         else ret tt)).

(** ** The outcome table of the reconciliation call

    The four transitions as the design document lists them, keyed by the
    observation taken when the detector was built ([tx0]) and the one
    taken by the reconciliation ([active]); [old] is the start time found
    on the connection and [now] the clock reading. *)
Definition outcome_table (tx0 active : bool) (old now : time.Time)
    : time.Time :=
  match tx0, active with
  | false, false => old                               (* still not active *)
  | false, true => if time.IsZero old then now else old   (* became active *)
  | true, true => old                                 (* still active *)
  | true, false => if time.IsZero old then old else time.zero (* ended *)
  end.

(** A detector that can be reconciled: it is allocated, and so are its
    connection and the connection's engine session. *)
Record reconcilable (w : World) (t : addr) (ts : TxStateChange)
    (cn : Connection) (e : sdb.Conn) : Prop := {
  rec_change : changes w !! t = Some ts;
  rec_conn : conns w !! c ts = Some cn;
  rec_engine : engines w !! db cn = Some e
}.


(** A small world for examples: one engine session (in a transaction),
    one connection on it and one detector that saw no transaction. *)
Definition sample_engine : sdb.Conn :=
  {| sdb.txActive := true; sdb.fkEnabled := true; sdb.fkErr := None |}.

Definition sample_conn : Connection :=
  {| db := 1%positive; store := 1%positive; id := 7%N; timeMu := false;
     createdAt := time.mkTime 63000000000 0; lastUsedAt := time.zero;
     txStateMu := false; txStartedAt := time.zero |}.

Definition sample_change : TxStateChange :=
  {| c := 1%positive; tx := false; done := false |}.

Definition sample_world : World :=
  {| conns := {[ 1%positive := sample_conn ]};
     engines := {[ 1%positive := sample_engine ]};
     changes := {[ 1%positive := sample_change ]};
     clock := time.mkTime 63000000042 500 |}.

(** The same connection with a transaction recorded as started. *)
Definition sample_started : time.Time := time.mkTime 63000000001 0.

Definition sample_world_started : World :=
  set_conns <[1%positive := with_txStartedAt sample_started sample_conn]>
    sample_world.

(** A detector that saw a transaction, on a connection with no start
    time, once the engine has left the transaction. *)
Definition sample_world_ended : World :=
  {| conns := {[ 1%positive := sample_conn ]};
     engines := {[ 1%positive := {| sdb.txActive := false;
                                    sdb.fkEnabled := true;
                                    sdb.fkErr := None |} ]};
     changes := {[ 1%positive := {| c := 1%positive; tx := true;
                                    done := false |} ]};
     clock := time.mkTime 63000000042 500 |}.

(** ** Status serialization *)

(** The dynamic values stored in the [map[string]interface{}] that
    [MarshalJSON] hands to the encoder. *)
Inductive value : Type :=
| VString (s : string)
| VUint64 (n : N)
| VTime (t : time.Time).

Section Status.

(** [enabledFromBool] (store.go) and [json.Marshal] (encoding/json) are
    defined outside this file: both are taken as given. *)
Variable enabledFromBool : bool -> string.
Variable json_Marshal : gmap string value -> list Byte.byte * error.

(** [func (c *Connection) MarshalJSON() ([]byte, error)] *)
Definition MarshalJSON (p : addr) : M (list Byte.byte * error) :=
  cn <- load_conn p ;;
  e <- load_engine (db cn) ;;
  let (fk, err) := sdb.FKConstraints e in
  match err with
  | Some _ => ret ([], err)
  | None =>
      let m : gmap string value := ∅ in
      let m := <["fk_constraints" := VString (enabledFromBool fk)]> m in
      let m := <["id" := VUint64 (id cn)]> m in
      let m := <["created_at" := VTime (createdAt cn)]> m in
      let m := if negb (time.IsZero (txStartedAt cn))
               then <["tx_started_at" := VTime (txStartedAt cn)]> m
               else m in
      let m := if negb (time.IsZero (lastUsedAt cn))
               then <["last_used_at" := VTime (lastUsedAt cn)]> m
               else m in
      ret (json_Marshal m)
  end.

End Status.

(** ** Calls into the store *)

(** [type ExecuteRequest struct] is declared in store.go; the positional
    literal in [AbortTransaction] fixes its shape: a list of statements
    and two flags. *)
Record ExecuteRequest := mkExecuteRequest {
  Queries : list string;
  Timings : bool;
  Tx : bool
}.

(** What [store.execute] hands back: a [*ExecuteResponse] ([None] for
    [nil]) and an [error]. *)
Definition execute_reply : Type := option addr * error.

(** One call of [s.execute(c, ex)]: the store, the connection, the
    request. *)
Definition execute_call : Type := addr * addr * ExecuteRequest.

(** A method that calls into the store, as the tree of its calls: the
    store is a collaborator whose behaviour this package does not fix. *)
Inductive Prog (A : Type) : Type :=
| Done (a : A)
| Fault (msg : string)
| CallExecute (s p : addr) (ex : ExecuteRequest)
              (k : execute_reply -> Prog A).
Arguments Done {A} a.
Arguments Fault {A} msg.
Arguments CallExecute {A} s p ex k.

(** [func (c *Connection) Execute(ex *ExecuteRequest)], returning the
    store's response and error as they come. *)
Definition Execute (p : addr) (ex : ExecuteRequest) (w : World)
    : Prog execute_reply :=
  match conns w !! p with
  | None => Fault nil_dereference
  | Some cn => CallExecute (store cn) p ex (fun r => Done r)
  end.

(** [func (c *Connection) AbortTransaction() error] *)
Definition AbortTransaction (p : addr) (w : World) : Prog error :=
  match conns w !! p with
  | None => Fault nil_dereference
  | Some cn =>
      CallExecute (store cn) p
        {| Queries := ["ROLLBACK"]; Timings := false; Tx := false |}
        (fun '(_, err) => Done err)
  end.

Section Store.

(** Any store: a state of its own, and an [execute] that may return,
    panic or never come back. *)
Variable S : Type.
Variable execute :
  addr -> addr -> ExecuteRequest -> S -> outcome execute_reply * S.

(** Run a method against the store, recording every call made. *)
Fixpoint run_prog {A} (pr : Prog A) (st : S)
    : list execute_call * outcome A * S :=
  match pr with
  | Done a => ([], Returned a, st)
  | Fault msg => ([], Panicked msg, st)
  | CallExecute s p ex k =>
      match execute s p ex st with
      | (Returned r, st1) =>
          let '(calls, o, st2) := run_prog (k r) st1 in
          ((s, p, ex) :: calls, o, st2)
      | (Panicked msg, st1) => ([(s, p, ex)], Panicked msg, st1)
      | (Blocked, st1) => ([(s, p, ex)], Blocked, st1)
      end
  end.

End Store.

(** A store for examples: its state counts the calls it served, and a
    rollback outside a transaction is refused. *)
Definition sample_execute (s p : addr) (ex : ExecuteRequest) (served : nat)
    : outcome execute_reply * nat :=
  (Returned (None, Some "cannot rollback - no transaction is active"),
   Datatypes.S served).

(** ** Runs: detectors and the engine over time *)

Definition with_txActive (b : bool) (e : sdb.Conn) : sdb.Conn :=
  {| sdb.txActive := b; sdb.fkEnabled := sdb.fkEnabled e;
     sdb.fkErr := sdb.fkErr e |}.

(** What can happen to a connection between two observations. *)
Inductive event : Type :=
| EvNewTxStateChange (p : addr)         (* NewTxStateChange(p) *)
| EvEngine (d : addr) (active : bool)   (* session d enters or leaves a
                                           transaction *)
| EvClock (now : time.Time)             (* time passes *)
| EvCheckAndSet (t : addr).             (* t.CheckAndSet() *)

Definition exec_event (ev : event) : M unit :=
  match ev with
  | EvNewTxStateChange p => NewTxStateChange p ;;; ret tt
  | EvEngine d active =>
      fun w => (Returned tt, set_engines (alter (with_txActive active) d) w)
  | EvClock now => fun w => (Returned tt, set_clock now w)
  | EvCheckAndSet t => CheckAndSet t
  end.

Fixpoint run_events (evs : list event) : M unit :=
  match evs with
  | [] => ret tt
  | ev :: evs' => exec_event ev ;;; run_events evs'
  end.

(** The start-time invariant of the design document, at connection [p]:
    the start time is set exactly when the engine reports a transaction. *)
Definition start_time_tracks_engine (w : World) (p : addr) : Prop :=
  exists cn e,
    conns w !! p = Some cn /\ engines w !! db cn = Some e /\
    (time.IsZero (txStartedAt cn) = false <->
     sdb.TransactionActive e = true).

(** Modelled from the spec: the store's operations are not in this file;
    section 2 gives their flow: the store builds a detector, issues SQL
    through the engine, then calls the reconciliation.  [body] is what
    the engine and the clock do meanwhile. *)
Definition operation (p : addr) (body : list event) : M unit :=
  t <- NewTxStateChange p ;;
  run_events body ;;;
  CheckAndSet t.

Fixpoint run_operations (p : addr) (bodies : list (list event)) : M unit :=
  match bodies with
  | [] => ret tt
  | body :: rest => operation p body ;;; run_operations p rest
  end.

(** An event of the engine or of a clock that does not read the zero
    time: no detector is built or reconciled. *)
Definition engine_or_clock (ev : event) : bool :=
  match ev with
  | EvEngine _ _ => true
  | EvClock now => negb (time.IsZero now)
  | EvNewTxStateChange _ | EvCheckAndSet _ => false
  end.

(** A connection just made by [NewConnection] on an idle engine
    session. *)
Definition idle_engine : sdb.Conn :=
  {| sdb.txActive := false; sdb.fkEnabled := true; sdb.fkErr := None |}.

Definition fresh_world : World :=
  snd (NewConnection 1%positive 1%positive 7%N
         {| conns := ∅; engines := {[ 1%positive := idle_engine ]};
            changes := ∅; clock := time.mkTime 63000000000 0 |}).

(** Two overlapping operations on that connection: detectors 1 and 2 are
    both built before a transaction begins; detector 1 is reconciled
    while it is open, detector 2 after it has ended. *)
Definition overlapping_run : list event :=
  [ EvNewTxStateChange 1%positive;
    EvNewTxStateChange 1%positive;
    EvEngine 1%positive true;
    EvClock (time.mkTime 63000000005 0);
    EvCheckAndSet 1%positive;
    EvEngine 1%positive false;
    EvClock (time.mkTime 63000000009 0);
    EvCheckAndSet 2%positive ].

(** ** [CheckAndSet], one shared-memory access at a time

    For goroutines running reconciliations side by side, the body is cut
    at each access to state another goroutine can reach. *)
Inductive pc : Type :=
| AtLock                        (* line 122: t.c.txStateMu.Lock() *)
| AtDone                        (* line 126: if t.done *)
| AtEngine                      (* t.c.db.TransactionActive(), line 130 or 132 *)
| AtStarted                     (* t.c.txStartedAt.IsZero(), line 130 or 132 *)
| AtAssign (start : bool)       (* line 131 ([start]) or line 133 *)
| AtSetDone (o : outcome unit)  (* deferred: t.done = true *)
| AtUnlock (o : outcome unit)   (* deferred: t.c.txStateMu.Unlock() *)
| Finished (o : outcome unit).

(** Between [Lock] and [Unlock]. *)
Definition in_critical (k : pc) : bool :=
  match k with
  | AtLock | Finished _ => false
  | _ => true
  end.

(** One step of the goroutine reconciling detector [t]; [None] when it
    cannot move: it has finished, or it waits for the mutex.  [o] in
    [AtSetDone] and [AtUnlock] is the pending outcome the deferred
    functions run under. *)
Definition thread_step (w : World) (t : addr) (k : pc)
    : option (World * pc) :=
  match k with
  | Finished _ => None
  | _ =>
    match changes w !! t with
    | None => Some (w, Finished (Panicked nil_dereference))
    | Some ts =>
      match conns w !! c ts with
      | None => Some (w, Finished (Panicked nil_dereference))
      | Some cn =>
        match k with
        | AtLock =>
            if txStateMu cn then None
            else Some (set_conns <[c ts := with_txStateMu true cn]> w, AtDone)
        | AtDone =>
            if done ts
            then Some (w, AtSetDone
                            (Panicked "CheckAndSet should only be called once"))
            else Some (w, AtEngine)
        | AtEngine =>
            match engines w !! db cn with
            | None => Some (w, AtSetDone (Panicked nil_dereference))
            | Some e =>
                if negb (tx ts) then
                  if sdb.TransactionActive e then Some (w, AtStarted)
                  else Some (w, AtSetDone (Returned tt))
                else
                  if negb (sdb.TransactionActive e) then Some (w, AtStarted)
                  else Some (w, AtSetDone (Returned tt))
            end
        | AtStarted =>
            if negb (tx ts) then
              if time.IsZero (txStartedAt cn) then Some (w, AtAssign true)
              else Some (w, AtSetDone (Returned tt))
            else
              if negb (time.IsZero (txStartedAt cn))
              then Some (w, AtAssign false)
              else Some (w, AtSetDone (Returned tt))
        | AtAssign start =>
            Some (set_conns
                    <[c ts := with_txStartedAt
                                (if start then clock w else time.zero) cn]> w,
                  AtSetDone (Returned tt))
        | AtSetDone o =>
            Some (set_changes <[t := with_done true ts]> w, AtUnlock o)
        | AtUnlock o =>
            if txStateMu cn
            then Some (set_conns <[c ts := with_txStateMu false cn]> w,
                       Finished o)
            else Some (w, Finished (Panicked "sync: unlock of unlocked mutex"))
        | Finished _ => None
        end
      end
    end
  end.

(** A goroutine left alone for [n] steps. *)
Fixpoint run_thread (n : nat) (w : World) (t : addr) (k : pc)
    : World * pc :=
  match n with
  | O => (w, k)
  | Datatypes.S n' =>
      match thread_step w t k with
      | None => (w, k)
      | Some (w', k') => run_thread n' w' t k'
      end
  end.

(** The process: the shared world and the goroutines, each reconciling
    one detector. *)
Record system := mkSystem {
  world : World;
  threads : list (addr * pc)
}.

(** The surroundings build detectors, drive the engine and the clock;
    reconciliations are the goroutines' business. *)
Definition env_event (ev : event) : bool :=
  match ev with
  | EvCheckAndSet _ => false
  | _ => true
  end.

(** Any goroutine that can move may move next; the surroundings may act,
    and a new goroutine may start a reconciliation, at any time. *)
Inductive sys_step : system -> system -> Prop :=
| step_thread s i t k w' k' :
    threads s !! i = Some (t, k) ->
    thread_step (world s) t k = Some (w', k') ->
    sys_step s {| world := w'; threads := <[i := (t, k')]> (threads s) |}
| step_env s ev w' :
    env_event ev = true ->
    exec_event ev (world s) = (Returned tt, w') ->
    sys_step s {| world := w'; threads := threads s |}
| step_go s t :
    sys_step s {| world := world s; threads := threads s ++ [(t, AtLock)] |}.

(** Before any reconciliation has started: no goroutine, every mutex
    free. *)
Definition initial (s : system) : Prop :=
  threads s = [] /\
  forall p cn, conns (world s) !! p = Some cn -> txStateMu cn = false.

(** The connection a detector points to, and the state of a connection's
    transaction-state mutex. *)
Definition conn_of (w : World) (t : addr) : option addr :=
  c <$> changes w !! t.

Definition mutex_of (w : World) (p : addr) : option bool :=
  txStateMu <$> conns w !! p.

(** Goroutine [i] is inside the critical section of connection [p]. *)
Definition holder (s : system) (i : nat) (p : addr) : Prop :=
  exists t k,
    threads s !! i = Some (t, k) /\ in_critical k = true /\
    conn_of (world s) t = Some p.

(** What holds of every state the process can reach. *)
Record coherent (s : system) : Prop := {
  (* a goroutine inside a critical section has a detector *)
  coh_alloc : forall i t k,
    threads s !! i = Some (t, k) -> in_critical k = true ->
    is_Some (conn_of (world s) t);
  (* and its connection's mutex is held *)
  coh_locked : forall i p, holder s i p -> mutex_of (world s) p = Some true;
  (* a held mutex has a goroutine inside *)
  coh_owner : forall p,
    mutex_of (world s) p = Some true -> exists i, holder s i p;
  (* and only one *)
  coh_alone : forall i j p, holder s i p -> holder s j p -> i = j;
  (* the start time read at line 130 or 132 is still there at the write *)
  coh_snapshot : forall i t start p cn,
    threads s !! i = Some (t, AtAssign start) ->
    conn_of (world s) t = Some p ->
    conns (world s) !! p = Some cn ->
    time.IsZero (txStartedAt cn) = start
}.

(** The four kinds of step, by what they do to the mutexes: entering a
    critical section, failing before it, moving inside it, leaving it. *)
Inductive step_kind (w : World) (t : addr) (k : pc) (w' : World) (k' : pc)
    : Prop :=
| kind_enter p :
    k = AtLock -> in_critical k' = true ->
    conn_of w t = Some p ->
    mutex_of w p = Some false -> mutex_of w' p = Some true ->
    (forall q, q <> p -> mutex_of w' q = mutex_of w q) ->
    step_kind w t k w' k'
| kind_fail :
    k = AtLock -> in_critical k' = false -> w' = w ->
    step_kind w t k w' k'
| kind_inside :
    in_critical k = true -> in_critical k' = true ->
    (forall q, mutex_of w' q = mutex_of w q) ->
    step_kind w t k w' k'
| kind_leave p :
    in_critical k = true -> in_critical k' = false ->
    conn_of w t = Some p ->
    mutex_of w' p = Some false ->
    (forall q, q <> p -> mutex_of w' q = mutex_of w q) ->
    step_kind w t k w' k'.

(** The sample world before any reconciliation, and once one goroutine
    has started reconciling detector 1 and taken the mutex. *)
Definition sample_system : system :=
  {| world := sample_world; threads := [] |}.

Definition sample_system_locked : system :=
  {| world := set_conns <[1%positive := with_txStateMu true sample_conn]>
                sample_world;
     threads := [(1%positive, AtDone)] |}.


(** ** The remaining methods of [Connection] *)

(** [func (c *Connection) String() string]: ["connection:%d"] of the id,
    an unsigned decimal without sign or padding. *)
Definition Connection_String (p : addr) : M string :=
  cn <- load_conn p ;;
  ret ("connection:" +:+ NilZero.string_of_uint (N.to_uint (id cn))).

(** The store's other entry points.  Requests and responses of queries
    are declared in store.go and only pass through as pointers. *)
Inductive store_call : Type -> Type :=
| call_executeOrAbort (s p : addr) (ex : ExecuteRequest)
    : store_call execute_reply
| call_query (s p : addr) (qr : addr) : store_call (option addr * error)
| call_disconnect (s p : addr) : store_call error.

(** A call together with the type of its reply, for the record of the
    calls made. *)
Definition logged_call : Type := { X : Type & store_call X }.

Inductive Method (A : Type) : Type :=
| MDone (a : A)
| MFault (msg : string)
| MCall {X : Type} (e : store_call X) (k : X -> Method A).
Arguments MDone {A} a.
Arguments MFault {A} msg.
Arguments MCall {A X} e k.

(** [func (c *Connection) ExecuteOrAbort(ex *ExecuteRequest)], with the
    store's response and error as named results. *)
Definition ExecuteOrAbort (p : addr) (ex : ExecuteRequest) (w : World)
    : Method execute_reply :=
  match conns w !! p with
  | None => MFault nil_dereference
  | Some cn => MCall (call_executeOrAbort (store cn) p ex) (fun r => MDone r)
  end.

(** [func (c *Connection) Query(qr *QueryRequest)] *)
Definition Query (p : addr) (qr : addr) (w : World)
    : Method (option addr * error) :=
  match conns w !! p with
  | None => MFault nil_dereference
  | Some cn => MCall (call_query (store cn) p qr) (fun r => MDone r)
  end.

(** [func (c *Connection) Close() error] *)
Definition Close (p : addr) (w : World) : Method error :=
  match conns w !! p with
  | None => MFault nil_dereference
  | Some cn => MCall (call_disconnect (store cn) p) (fun r => MDone r)
  end.

Section StoreMethods.

(** Any store, answering each kind of call. *)
Variable S : Type.
Variable serve : forall X, store_call X -> S -> outcome X * S.

Fixpoint run_method {A} (m : Method A) (st : S)
    : list logged_call * outcome A * S :=
  match m with
  | MDone a => ([], Returned a, st)
  | MFault msg => ([], Panicked msg, st)
  | MCall e k =>
      match serve _ e st with
      | (Returned r, st1) =>
          let '(calls, o, st2) := run_method (k r) st1 in
          (existT _ e :: calls, o, st2)
      | (Panicked msg, st1) => ([existT _ e], Panicked msg, st1)
      | (Blocked, st1) => ([existT _ e], Blocked, st1)
      end
  end.

End StoreMethods.

(** The outcome of a call whose result is passed through [f]. *)
Definition outcome_map {A B} (f : A -> B) (o : outcome A) : outcome B :=
  match o with
  | Returned a => Returned (f a)
  | Panicked msg => Panicked msg
  | Blocked => Blocked
  end.

(** The request [AbortTransaction] builds. *)
Definition rollback_request : ExecuteRequest :=
  {| Queries := ["ROLLBACK"]; Timings := false; Tx := false |}.

(** A store for examples that answers every kind of call without error
    and counts the calls it served. *)
Definition sample_serve (X : Type) (e : store_call X) (served : nat)
    : outcome X * nat :=
  match e in store_call X return outcome X * nat with
  | call_executeOrAbort _ _ _ => (Returned (Some 9%positive, None),
                                  Datatypes.S served)
  | call_query _ _ _ => (Returned (Some 9%positive, None), Datatypes.S served)
  | call_disconnect _ _ => (Returned None, Datatypes.S served)
  end.

(** ** Runs, continued *)

(** No transaction-state mutex is held. *)
Definition all_free (w : World) : Prop :=
  map_Forall (fun _ cn => txStateMu cn = false) (conns w).

(** Two states of one connection that differ at most in the start time
    and in the transaction-state mutex. *)
Definition same_identity (cn cn' : Connection) : Prop :=
  id cn' = id cn /\ createdAt cn' = createdAt cn /\
  lastUsedAt cn' = lastUsedAt cn /\ db cn' = db cn /\
  store cn' = store cn /\ timeMu cn' = timeMu cn.

(** An event of the engine or the clock, whatever the clock reads. *)
Definition statement_event (ev : event) : bool :=
  match ev with
  | EvEngine _ _ | EvClock _ => true
  | EvNewTxStateChange _ | EvCheckAndSet _ => false
  end.

(** What session [d] reports after the events of [body], when it
    reported [active] before. *)
Fixpoint engine_after (body : list event) (d : addr) (active : bool) : bool :=
  match body with
  | [] => active
  | EvEngine d' b :: rest =>
      engine_after rest d (if decide (d' = d) then b else active)
  | _ :: rest => engine_after rest d active
  end.

(** What the clock reads after the events of [body]. *)
Fixpoint clock_after (body : list event) (now : time.Time) : time.Time :=
  match body with
  | [] => now
  | EvClock t :: rest => clock_after rest t
  | _ :: rest => clock_after rest now
  end.

(** Two connections, each on its own engine session and each with its
    own detector: the first saw no transaction and now has one, the
    second saw one that has ended since. *)
Definition second_conn : Connection :=
  {| db := 2%positive; store := 1%positive; id := 8%N; timeMu := false;
     createdAt := time.mkTime 63000000010 0; lastUsedAt := time.zero;
     txStateMu := false; txStartedAt := time.mkTime 63000000020 0 |}.

Definition second_change : TxStateChange :=
  {| c := 2%positive; tx := true; done := false |}.

Definition two_connections : World :=
  {| conns := {[ 1%positive := sample_conn; 2%positive := second_conn ]};
     engines := {[ 1%positive := sample_engine; 2%positive := idle_engine ]};
     changes := {[ 1%positive := sample_change; 2%positive := second_change ]};
     clock := time.mkTime 63000000042 500 |}.

(** ** Goroutines, continued *)

(** Steps a goroutine may still take from a program point. *)
Definition pc_rank (k : pc) : nat :=
  match k with
  | AtLock => 7
  | AtDone => 6
  | AtEngine => 5
  | AtStarted => 4
  | AtAssign _ => 3
  | AtSetDone _ => 2
  | AtUnlock _ => 1
  | Finished _ => 0
  end.

(** Steps all goroutines together may still take. *)
Definition work (s : system) : nat :=
  sum_list (pc_rank ∘ snd <$> threads s).

(** The done flag of a detector. *)
Definition done_of (w : World) (t : addr) : option bool :=
  done <$> changes w !! t.

(** Past the test of line 126 with no panic pending: the goroutine has
    returned or may still return. *)
Definition candidate (k : pc) : bool :=
  match k with
  | AtEngine | AtStarted | AtAssign _ => true
  | AtSetDone (Returned _) | AtUnlock (Returned _)
  | Finished (Returned _) => true
  | _ => false
  end.

(** Past the deferred assignment of line 124. *)
Definition marked (k : pc) : bool :=
  match k with
  | AtUnlock _ | Finished (Returned _) => true
  | _ => false
  end.

(** Per detector, at most one goroutine is past the test, and whoever is
    past the deferred assignment has left the detector done. *)
Record oneshot (s : system) : Prop := {
  os_single : forall i j t ki kj,
    threads s !! i = Some (t, ki) -> threads s !! j = Some (t, kj) ->
    candidate ki = true -> candidate kj = true -> i = j;
  os_marked : forall i t k,
    threads s !! i = Some (t, k) -> marked k = true ->
    done_of (world s) t = Some true
}.

(** Two goroutines on the one detector of the sample world, the first
    finished, the second turned away. *)
Definition sample_system_reused : system :=
  {| world := snd (CheckAndSet 1%positive sample_world);
     threads := [(1%positive, Finished (Returned tt));
                 (1%positive,
                  Finished (Panicked
                              "CheckAndSet should only be called once"))] |}.
(** * Facts about the zero time *)

Lemma IsZero_zero : time.IsZero time.zero = true.
Proof. reflexivity. Qed.

Lemma IsZero_true (t : time.Time) : time.IsZero t = true <-> t = time.zero.
Proof.
  destruct t as [s n]; unfold time.IsZero, time.zero; simpl.
  rewrite andb_true_iff, !Z.eqb_eq.
  split; [intros [-> ->]; reflexivity | intros [= -> ->]; auto].
Qed.

(** * Sequential behaviour of [CheckAndSet] *)

Ltac unfold_ops :=
  unfold CheckAndSet, Lock_txStateMu, Unlock_txStateMu, defer, andM,
    conn_TransactionActive, conn_txStartedAt_IsZero, assign_txStartedAt,
    Now, panic, bind, ret, load_change, load_conn, load_engine,
    store_conn, store_change.

Ltac eval_heap H1 H2 :=
  repeat (progress (cbn -[lookup insert];
                    rewrite ?lookup_insert_eq, ?H1, ?H2)).

Lemma set_conns_id (w : World) (p : addr) (cn : Connection) :
  conns w !! p = Some cn -> set_conns <[p := cn]> w = w.
Proof.
  intros H. destruct w as [cs es ds k]; unfold set_conns; cbn in *.
  by rewrite (insert_id _ _ _ H).
Qed.

Lemma set_changes_id (w : World) (t : addr) (ts : TxStateChange) :
  changes w !! t = Some ts -> set_changes <[t := ts]> w = w.
Proof.
  intros H. destruct w as [cs es ds k]; unfold set_changes; cbn in *.
  by rewrite (insert_id _ _ _ H).
Qed.

(** First use of a detector whose connection's mutex is free: the call
    returns, the connection's start time follows the table, and the
    detector is marked done. *)
Lemma CheckAndSet_fresh w t ts cn e :
  reconcilable w t ts cn e ->
  txStateMu cn = false ->
  done ts = false ->
  CheckAndSet t w =
    (Returned tt,
     set_changes <[t := with_done true ts]>
       (set_conns
          <[c ts := with_txStartedAt
                      (outcome_table (tx ts) (sdb.TransactionActive e)
                                     (txStartedAt cn) (clock w)) cn]> w)).
Proof.
  intros [Hts Hcn He] Hmu Hd.
  unfold_ops. rewrite Hts, Hcn, Hmu. cbn -[lookup insert]. rewrite Hts, Hd.
  destruct ts as [p tx0 d], cn as [dbp sp i tm ca lu mu old],
    e as [act fk fe]; cbn -[lookup insert] in *; subst.
  destruct (time.IsZero old) eqn:Hz, tx0, act;
    eval_heap Hts He; rewrite ?Hz; eval_heap Hts He;
    unfold set_changes, set_conns, with_txStartedAt, with_txStateMu;
    cbn -[lookup insert]; rewrite ?insert_insert_eq; reflexivity.
Qed.

(** A detector already marked done: the call panics, and once the two
    deferred functions have run the world is what it was. *)
Lemma CheckAndSet_used w t ts cn :
  changes w !! t = Some ts ->
  conns w !! c ts = Some cn ->
  txStateMu cn = false ->
  done ts = true ->
  CheckAndSet t w = (Panicked "CheckAndSet should only be called once", w).
Proof.
  intros Hts Hcn Hmu Hd.
  unfold_ops. rewrite Hts, Hcn, Hmu. cbn -[lookup insert]. rewrite Hts, Hd.
  eval_heap Hts Hcn.
  f_equal. destruct w as [cs es ds k], ts as [p tx0 d],
    cn as [dbp sp i tm ca lu mu old]; cbn -[lookup insert] in *; subst.
  unfold with_done, with_txStateMu, set_conns, set_changes;
    cbn -[lookup insert].
  rewrite insert_insert_eq, (insert_id _ _ _ Hts), (insert_id _ _ _ Hcn).
  reflexivity.
Qed.

(** The call parks exactly when the mutex of its own connection is held. *)
Lemma CheckAndSet_held w t ts cn :
  changes w !! t = Some ts ->
  conns w !! c ts = Some cn ->
  txStateMu cn = true ->
  CheckAndSet t w = (Blocked, w).
Proof.
  intros Hts Hcn Hmu. unfold_ops. by rewrite Hts, Hcn, Hmu.
Qed.

(** Whatever the detector's flags and the engine, a call that gets the
    mutex finishes, marks the detector done, releases the mutex, and
    leaves everything else but the connection's start time alone. *)
Lemma CheckAndSet_effect w t ts cn :
  changes w !! t = Some ts ->
  conns w !! c ts = Some cn ->
  txStateMu cn = false ->
  exists o v,
    o <> Blocked /\
    CheckAndSet t w =
      (o, set_changes <[t := with_done true ts]>
            (set_conns <[c ts := with_txStartedAt v cn]> w)).
Proof.
  intros Hts Hcn Hmu.
  destruct (done ts) eqn:Hd.
  - exists (Panicked "CheckAndSet should only be called once"), (txStartedAt cn).
    split; [discriminate |].
    rewrite (CheckAndSet_used w t ts cn) by assumption. f_equal.
    replace (with_txStartedAt (txStartedAt cn) cn) with cn by (by destruct cn).
    replace (with_done true ts) with ts
      by (destruct ts; cbn in Hd; by subst).
    by rewrite (set_conns_id _ _ _ Hcn), (set_changes_id _ _ _ Hts).
  - destruct (engines w !! db cn) as [e|] eqn:He.
    + exists (Returned tt). eexists. split; [discriminate |].
      by apply CheckAndSet_fresh.
    + exists (Panicked nil_dereference), (txStartedAt cn).
      split; [discriminate |].
      unfold_ops. rewrite Hts, Hcn, Hmu. cbn -[lookup insert].
      rewrite Hts, Hd.
      destruct ts as [p tx0 d], cn as [dbp sp i tm ca lu mu old];
        cbn -[lookup insert] in *; subst.
      destruct tx0; eval_heap Hts He;
        unfold set_changes, set_conns, with_txStartedAt, with_txStateMu;
        cbn -[lookup insert]; rewrite ?insert_insert_eq; reflexivity.
Qed.

(** * The detector's reconciliation call *)

(** C1.  On its first use, for each of the four observation pairs,
    [CheckAndSet] returns and leaves on the connection the start time of
    the outcome table: unchanged for (false,false) and (true,true), the
    clock reading for (false,true) when it was unset, the zero time for
    (true,false) when it was set; no other connection is touched. *)
Theorem CheckAndSet_outcome_table w t ts cn e :
  reconcilable w t ts cn e ->
  txStateMu cn = false ->
  done ts = false ->
  exists w',
    CheckAndSet t w = (Returned tt, w') /\
    txStartedAt <$> conns w' !! c ts =
      Some (outcome_table (tx ts) (sdb.TransactionActive e)
                          (txStartedAt cn) (clock w)) /\
    forall p, p <> c ts -> conns w' !! p = conns w !! p.
Proof.
  intros Hrec Hmu Hd. eexists. split.
  - by apply CheckAndSet_fresh.
  - cbn -[lookup insert]. split.
    + by rewrite lookup_insert_eq.
    + intros p Hp. by rewrite lookup_insert_ne.
Qed.

Lemma CheckAndSet_outcome_table_witness :
  exists w',
    CheckAndSet 1%positive sample_world = (Returned tt, w') /\
    txStartedAt <$> conns w' !! 1%positive =
      Some (outcome_table false true time.zero (clock sample_world)) /\
    forall p, p <> 1%positive ->
      conns w' !! p = conns sample_world !! p.
Proof.
  apply (CheckAndSet_outcome_table sample_world 1%positive
           sample_change sample_conn sample_engine);
    [split; reflexivity | reflexivity | reflexivity].
Defined.

(** C2.  Once [CheckAndSet] has run on a detector, however that first
    call ended, a second call on it panics instead of returning,
    whatever has happened meanwhile to the engine, the clock, the
    connection's start time and the other detectors. *)
Theorem CheckAndSet_twice_panics w t ts cn o1 w1 w2 cn2 :
  changes w !! t = Some ts ->
  conns w !! c ts = Some cn ->
  txStateMu cn = false ->
  CheckAndSet t w = (o1, w1) ->
  changes w2 !! t = changes w1 !! t ->
  conns w2 !! c ts = Some cn2 ->
  txStateMu cn2 = false ->
  CheckAndSet t w2 =
    (Panicked "CheckAndSet should only be called once", w2).
Proof.
  intros Hts Hcn Hmu H1 Hsame Hcn2 Hmu2.
  destruct (CheckAndSet_effect w t ts cn Hts Hcn Hmu) as (o & v & _ & Heq).
  rewrite Heq in H1. injection H1 as _ <-.
  cbn -[lookup insert] in Hsame. rewrite lookup_insert_eq in Hsame.
  by apply (CheckAndSet_used w2 t (with_done true ts) cn2).
Qed.

Lemma CheckAndSet_twice_panics_witness :
  CheckAndSet 1%positive
    (set_engines <[1%positive := {| sdb.txActive := false;
                                    sdb.fkEnabled := true;
                                    sdb.fkErr := None |}]>
       (snd (CheckAndSet 1%positive sample_world))) =
    (Panicked "CheckAndSet should only be called once",
     set_engines <[1%positive := {| sdb.txActive := false;
                                    sdb.fkEnabled := true;
                                    sdb.fkErr := None |}]>
       (snd (CheckAndSet 1%positive sample_world))).
Proof.
  apply (CheckAndSet_twice_panics sample_world 1%positive sample_change
           sample_conn (fst (CheckAndSet 1%positive sample_world))
           (snd (CheckAndSet 1%positive sample_world)) _
           (with_txStartedAt (clock sample_world) sample_conn));
    reflexivity.
Defined.

(** C4.  A detector that saw no transaction when built and sees one when
    reconciled does not overwrite a start time that is already set: the
    call returns and the connection is as it was. *)
Theorem CheckAndSet_keeps_existing_start w t ts cn e :
  reconcilable w t ts cn e ->
  txStateMu cn = false ->
  done ts = false ->
  tx ts = false ->
  sdb.TransactionActive e = true ->
  time.IsZero (txStartedAt cn) = false ->
  exists w',
    CheckAndSet t w = (Returned tt, w') /\
    conns w' !! c ts = Some cn.
Proof.
  intros Hrec Hmu Hd Htx Hact Hz. eexists. split.
  - by apply CheckAndSet_fresh.
  - cbn -[lookup insert]. rewrite lookup_insert_eq, Htx, Hact.
    unfold outcome_table. rewrite Hz. by destruct cn.
Qed.

Lemma CheckAndSet_keeps_existing_start_witness :
  exists w',
    CheckAndSet 1%positive sample_world_started = (Returned tt, w') /\
    conns w' !! 1%positive =
      Some (with_txStartedAt sample_started sample_conn).
Proof.
  apply (CheckAndSet_keeps_existing_start sample_world_started 1%positive
           sample_change (with_txStartedAt sample_started sample_conn)
           sample_engine);
    [split; reflexivity | reflexivity ..].
Defined.

(** C5.  A detector that saw a transaction when built and sees none when
    reconciled, on a connection whose start time is unset, does nothing
    to the connection: the call returns (no panic) and the start time is
    still the zero time. *)
Theorem CheckAndSet_ended_unset_noop w t ts cn e :
  reconcilable w t ts cn e ->
  txStateMu cn = false ->
  done ts = false ->
  tx ts = true ->
  sdb.TransactionActive e = false ->
  time.IsZero (txStartedAt cn) = true ->
  exists w',
    CheckAndSet t w = (Returned tt, w') /\
    conns w' = conns w /\
    txStartedAt <$> conns w' !! c ts = Some time.zero.
Proof.
  intros Hrec Hmu Hd Htx Hact Hz. eexists. split.
  - by apply CheckAndSet_fresh.
  - cbn -[lookup insert]. rewrite Htx, Hact. unfold outcome_table.
    rewrite Hz.
    replace (with_txStartedAt (txStartedAt cn) cn) with cn by (by destruct cn).
    destruct Hrec as [_ Hcn _]. rewrite (insert_id _ _ _ Hcn). split; [done |].
    rewrite Hcn. cbn. f_equal. by apply IsZero_true.
Qed.

Lemma CheckAndSet_ended_unset_noop_witness :
  exists w',
    CheckAndSet 1%positive sample_world_ended = (Returned tt, w') /\
    conns w' = conns sample_world_ended /\
    txStartedAt <$> conns w' !! 1%positive = Some time.zero.
Proof.
  apply (CheckAndSet_ended_unset_noop sample_world_ended 1%positive
           {| c := 1%positive; tx := true; done := false |} sample_conn
           {| sdb.txActive := false; sdb.fkEnabled := true;
              sdb.fkErr := None |});
    [split; reflexivity | reflexivity ..].
Defined.

(** C10.  Whenever [CheckAndSet] gets the mutex it finishes, by return or
    by panic, and in both cases the detector ends with [done] set and its
    other fields as they were; on its connection only [txStartedAt] may
    differ ([id], [createdAt], [lastUsedAt], the pointers and both
    mutexes are as before); every other connection, every other
    detector, the engine sessions and the clock are untouched. *)
Theorem CheckAndSet_frame w t ts cn :
  changes w !! t = Some ts ->
  conns w !! c ts = Some cn ->
  txStateMu cn = false ->
  exists o w',
    CheckAndSet t w = (o, w') /\
    o <> Blocked /\
    changes w' !! t = Some {| c := c ts; tx := tx ts; done := true |} /\
    (forall t', t' <> t -> changes w' !! t' = changes w !! t') /\
    (exists cn',
        conns w' !! c ts = Some cn' /\
        id cn' = id cn /\ createdAt cn' = createdAt cn /\
        lastUsedAt cn' = lastUsedAt cn /\
        db cn' = db cn /\ store cn' = store cn /\
        timeMu cn' = timeMu cn /\ txStateMu cn' = txStateMu cn) /\
    (forall p, p <> c ts -> conns w' !! p = conns w !! p) /\
    engines w' = engines w /\
    clock w' = clock w.
Proof.
  intros Hts Hcn Hmu.
  destruct (CheckAndSet_effect w t ts cn Hts Hcn Hmu) as (o & v & Ho & Heq).
  exists o. eexists. split; [exact Heq |]. split; [exact Ho |].
  cbn -[lookup insert]. repeat split.
  - by rewrite lookup_insert_eq.
  - intros t' Ht'. by rewrite lookup_insert_ne.
  - eexists. rewrite lookup_insert_eq. split; [reflexivity |].
    by repeat split.
  - intros p Hp. by rewrite lookup_insert_ne.
Qed.

Lemma CheckAndSet_frame_witness :
  exists o w',
    CheckAndSet 1%positive sample_world = (o, w') /\
    o <> Blocked /\
    changes w' !! 1%positive =
      Some {| c := 1%positive; tx := false; done := true |} /\
    (forall t', t' <> 1%positive ->
       changes w' !! t' = changes sample_world !! t') /\
    (exists cn',
        conns w' !! 1%positive = Some cn' /\
        id cn' = 7%N /\ createdAt cn' = createdAt sample_conn /\
        lastUsedAt cn' = time.zero /\
        db cn' = 1%positive /\ store cn' = 1%positive /\
        timeMu cn' = false /\ txStateMu cn' = false) /\
    (forall p, p <> 1%positive -> conns w' !! p = conns sample_world !! p) /\
    engines w' = engines sample_world /\
    clock w' = clock sample_world.
Proof.
  apply (CheckAndSet_frame sample_world 1%positive sample_change
           sample_conn); reflexivity.
Defined.

(** * Status serialization *)

Section StatusFacts.

Variable enabledFromBool : bool -> string.
Variable json_Marshal : gmap string value -> list Byte.byte * error.

Local Abbreviation marshal := (MarshalJSON enabledFromBool json_Marshal).

(** C6.  Whenever the engine answers the constraint-mode query, the
    status handed to the encoder has the id, the creation time and the
    foreign-key-constraint mode; it has the transaction-start time
    exactly when [txStartedAt] is not the zero time, the last-used time
    exactly when [lastUsedAt] is not the zero time, and nothing else.
    When the engine fails, its error is returned and nothing is
    serialized. *)
Theorem MarshalJSON_status w p cn e :
  conns w !! p = Some cn ->
  engines w !! db cn = Some e ->
  match sdb.fkErr e with
  | Some err => marshal p w = (Returned ([], Some err), w)
  | None =>
      exists m : gmap string value,
        marshal p w = (Returned (json_Marshal m), w) /\
        m !! "id" = Some (VUint64 (id cn)) /\
        m !! "created_at" = Some (VTime (createdAt cn)) /\
        m !! "fk_constraints" =
          Some (VString (enabledFromBool (sdb.fkEnabled e))) /\
        m !! "tx_started_at" =
          (if time.IsZero (txStartedAt cn) then None
           else Some (VTime (txStartedAt cn))) /\
        m !! "last_used_at" =
          (if time.IsZero (lastUsedAt cn) then None
           else Some (VTime (lastUsedAt cn))) /\
        forall k, is_Some (m !! k) ->
          k ∈ ["fk_constraints"; "id"; "created_at"; "tx_started_at";
               "last_used_at"]
  end.
Proof.
  intros Hcn He.
  unfold MarshalJSON, bind, load_conn, load_engine, ret.
  rewrite Hcn, He. unfold sdb.FKConstraints.
  destruct (sdb.fkErr e) as [err|]; [reflexivity |].
  eexists. split; [reflexivity |].
  destruct (time.IsZero (txStartedAt cn)), (time.IsZero (lastUsedAt cn));
    cbn -[lookup insert]; repeat split; try by simplify_map_eq.
  all: intros k [v Hk]; rewrite !elem_of_cons;
    destruct (decide (k = "fk_constraints")); [by auto |];
    destruct (decide (k = "id")); [by auto |];
    destruct (decide (k = "created_at")); [by auto |];
    destruct (decide (k = "tx_started_at")); [by auto 6 |];
    destruct (decide (k = "last_used_at")); [by auto 6 |];
    by simplify_map_eq.
Qed.

(** On a connection whose two optional times are unset the encoder gets
    the creation time and neither optional key. *)
Lemma MarshalJSON_without_times w p cn e :
  conns w !! p = Some cn ->
  engines w !! db cn = Some e ->
  sdb.fkErr e = None ->
  txStartedAt cn = time.zero ->
  lastUsedAt cn = time.zero ->
  exists m : gmap string value,
    marshal p w = (Returned (json_Marshal m), w) /\
    m !! "created_at" = Some (VTime (createdAt cn)) /\
    m !! "tx_started_at" = None /\
    m !! "last_used_at" = None.
Proof.
  intros Hcn He Herr Htx Hlu.
  unfold MarshalJSON, bind, load_conn, load_engine, ret.
  rewrite Hcn, He. unfold sdb.FKConstraints. rewrite Herr, Htx, Hlu.
  eexists. split; [reflexivity |]. cbn -[lookup insert].
  repeat split; by simplify_map_eq.
Qed.

(** [NewConnection] allocates a cell nobody holds yet and fills it from
    its arguments and the clock. *)
Lemma NewConnection_alloc w dbc s i :
  let p := fresh (dom (conns w)) in
  conns w !! p = None /\
  NewConnection dbc s i w =
    (Returned p,
     set_conns <[p := {| db := dbc; store := s; id := i;
                         timeMu := false; createdAt := clock w;
                         lastUsedAt := time.zero; txStateMu := false;
                         txStartedAt := time.zero |}]> w).
Proof.
  split; [apply not_elem_of_dom, is_fresh | reflexivity].
Qed.

(** C9.  [NewConnection] returns a connection whose [txStartedAt] and
    [lastUsedAt] are the zero time and whose [createdAt] is the clock
    reading at construction; serializing its status right away gives a
    map with the creation time and without the transaction-start and
    last-used keys. *)
Theorem NewConnection_status w dbc s i e :
  engines w !! dbc = Some e ->
  sdb.fkErr e = None ->
  exists p w' cn (m : gmap string value),
    NewConnection dbc s i w = (Returned p, w') /\
    conns w !! p = None /\
    conns w' !! p = Some cn /\
    txStartedAt cn = time.zero /\
    lastUsedAt cn = time.zero /\
    createdAt cn = clock w /\
    marshal p w' = (Returned (json_Marshal m), w') /\
    m !! "created_at" = Some (VTime (clock w)) /\
    m !! "tx_started_at" = None /\
    m !! "last_used_at" = None.
Proof.
  intros He Herr.
  destruct (NewConnection_alloc w dbc s i) as [Hfresh Hnew].
  set (p := fresh (dom (conns w))) in *.
  set (cn := {| db := dbc; store := s; id := i;
                timeMu := false; createdAt := clock w;
                lastUsedAt := time.zero; txStateMu := false;
                txStartedAt := time.zero |}) in *.
  destruct (MarshalJSON_without_times (set_conns <[p := cn]> w) p cn e)
    as (m & Hrun & Hc & Htx & Hlu); try done.
  { cbn -[lookup insert]. by rewrite lookup_insert_eq. }
  exists p, (set_conns <[p := cn]> w), cn, m.
  repeat split; try done.
  cbn -[lookup insert]. by rewrite lookup_insert_eq.
Qed.

End StatusFacts.

Lemma MarshalJSON_status_witness :
  exists m : gmap string value,
    MarshalJSON (fun b : bool => if b then "enabled" else "disabled")
      (fun _ => ([], None)) 1%positive sample_world_started =
      (Returned ([], None), sample_world_started) /\
    m !! "id" = Some (VUint64 7) /\
    m !! "created_at" = Some (VTime (createdAt sample_conn)) /\
    m !! "fk_constraints" = Some (VString "enabled") /\
    m !! "tx_started_at" = Some (VTime sample_started) /\
    m !! "last_used_at" = None /\
    forall k, is_Some (m !! k) ->
      k ∈ ["fk_constraints"; "id"; "created_at"; "tx_started_at";
           "last_used_at"].
Proof.
  apply (MarshalJSON_status (fun b : bool => if b then "enabled" else "disabled")
           (fun _ => ([], None)) sample_world_started 1%positive
           (with_txStartedAt sample_started sample_conn) sample_engine);
    reflexivity.
Defined.

Lemma NewConnection_status_witness :
  exists p w' cn (m : gmap string value),
    NewConnection 1%positive 1%positive 8 sample_world = (Returned p, w') /\
    conns sample_world !! p = None /\
    conns w' !! p = Some cn /\
    txStartedAt cn = time.zero /\
    lastUsedAt cn = time.zero /\
    createdAt cn = clock sample_world /\
    MarshalJSON (fun b : bool => if b then "enabled" else "disabled")
      (fun _ => ([], None)) p w' = (Returned ([], None), w') /\
    m !! "created_at" = Some (VTime (clock sample_world)) /\
    m !! "tx_started_at" = None /\
    m !! "last_used_at" = None.
Proof.
  apply (NewConnection_status (fun b : bool => if b then "enabled" else "disabled")
           (fun _ => ([], None)) sample_world 1%positive 1%positive 8
           sample_engine); reflexivity.
Defined.

(** * Calls into the store *)

(** C7.  Against any store, [AbortTransaction] makes exactly one call: to
    [execute] of the connection's own store, passing the connection
    itself and a request whose only statement is ROLLBACK, both flags
    off.  What it returns is the error of that call as is; the response
    is dropped; the store is left in the state that one call produced (no
    second attempt), and a panic of the store is not recovered. *)
Theorem AbortTransaction_single_rollback
    (S : Type)
    (execute : addr -> addr -> ExecuteRequest -> S ->
               outcome execute_reply * S)
    (st : S) (w : World) (p : addr) (cn : Connection) :
  conns w !! p = Some cn ->
  let ex := {| Queries := ["ROLLBACK"]; Timings := false; Tx := false |} in
  run_prog S execute (AbortTransaction p w) st =
    match execute (store cn) p ex st with
    | (Returned (_, err), st1) =>
        ([(store cn, p, ex)], Returned err, st1)
    | (Panicked msg, st1) => ([(store cn, p, ex)], Panicked msg, st1)
    | (Blocked, st1) => ([(store cn, p, ex)], Blocked, st1)
    end.
Proof.
  intros Hcn ex. unfold AbortTransaction. rewrite Hcn. cbn.
  fold ex. destruct (execute (store cn) p ex st) as [[[resp err]|msg|] st1];
    reflexivity.
Qed.

Lemma AbortTransaction_single_rollback_witness :
  run_prog nat sample_execute (AbortTransaction 1%positive sample_world) 0%nat =
    ([(1%positive, 1%positive,
       {| Queries := ["ROLLBACK"]; Timings := false; Tx := false |})],
     Returned (Some "cannot rollback - no transaction is active"),
     1%nat).
Proof.
  apply (AbortTransaction_single_rollback nat sample_execute 0%nat
           sample_world 1%positive sample_conn).
  reflexivity.
Defined.

(** * The start-time invariant over runs *)

Lemma NewTxStateChange_alloc w p cn e :
  conns w !! p = Some cn ->
  engines w !! db cn = Some e ->
  let t := fresh (dom (changes w)) in
  changes w !! t = None /\
  NewTxStateChange p w =
    (Returned t,
     set_changes <[t := {| c := p; tx := sdb.TransactionActive e;
                           done := false |}]> w).
Proof.
  intros Hcn He t. split; [apply not_elem_of_dom, is_fresh |].
  unfold NewTxStateChange, bind, load_conn, load_engine.
  by rewrite Hcn, He.
Qed.

(** While only the engine and the clock move, connections and detectors
    stay as they are, sessions stay allocated and the clock stays off
    the zero time. *)
Lemma run_events_engine_or_clock body : forall w,
  forallb engine_or_clock body = true ->
  time.IsZero (clock w) = false ->
  exists w',
    run_events body w = (Returned tt, w') /\
    conns w' = conns w /\
    changes w' = changes w /\
    (forall d, is_Some (engines w !! d) -> is_Some (engines w' !! d)) /\
    time.IsZero (clock w') = false.
Proof.
  induction body as [|ev body IH]; intros w Hall Hclk.
  - exists w. by repeat split.
  - cbn in Hall. apply andb_true_iff in Hall as [Hev Hall].
    destruct ev as [p|d active|now|t]; try discriminate; cbn -[alter].
    + destruct (IH (set_engines (alter (with_txActive active) d) w) Hall Hclk)
        as (w' & Hrun & Hc & Hd & He & Hk).
      exists w'. unfold bind. rewrite Hrun. repeat split; try done.
      intros d' Hd'. apply He. cbn -[alter].
      destruct (decide (d = d')) as [->|Hne].
      * rewrite lookup_alter_eq. by apply fmap_is_Some.
      * by rewrite lookup_alter_ne.
    + apply negb_true_iff in Hev.
      destruct (IH (set_clock now w) Hall Hev)
        as (w' & Hrun & Hc & Hd & He & Hk).
      exists w'. unfold bind. rewrite Hrun. by repeat split.
Qed.

(** One operation run on its own re-establishes the invariant. *)
Lemma operation_keeps_start_time w p cn e body :
  conns w !! p = Some cn ->
  engines w !! db cn = Some e ->
  txStateMu cn = false ->
  time.IsZero (clock w) = false ->
  time.IsZero (txStartedAt cn) = negb (sdb.TransactionActive e) ->
  forallb engine_or_clock body = true ->
  exists w' cn' e',
    operation p body w = (Returned tt, w') /\
    conns w' !! p = Some cn' /\
    engines w' !! db cn' = Some e' /\
    txStateMu cn' = false /\
    time.IsZero (clock w') = false /\
    time.IsZero (txStartedAt cn') = negb (sdb.TransactionActive e').
Proof.
  intros Hcn He Hmu Hclk Hinv Hbody.
  destruct (NewTxStateChange_alloc w p cn e Hcn He) as [_ Hnew].
  set (t := fresh (dom (changes w))) in *.
  set (ts := {| c := p; tx := sdb.TransactionActive e; done := false |}) in *.
  destruct (run_events_engine_or_clock body
              (set_changes <[t := ts]> w) Hbody Hclk)
    as (w2 & Hrun & Hc2 & Hd2 & He2 & Hk2).
  destruct (He2 (db cn)) as [e2 He2'].
  { cbn. by rewrite He. }
  assert (Hrec : reconcilable w2 t ts cn e2).
  { split.
    - rewrite Hd2. cbn -[lookup insert]. by rewrite lookup_insert_eq.
    - rewrite Hc2. exact Hcn.
    - exact He2'. }
  pose proof (CheckAndSet_fresh w2 t ts cn e2 Hrec Hmu eq_refl) as Hcs.
  eexists. exists
    (with_txStartedAt
       (outcome_table (tx ts) (sdb.TransactionActive e2)
                      (txStartedAt cn) (clock w2)) cn), e2.
  split.
  { unfold operation, bind. rewrite Hnew, Hrun. exact Hcs. }
  cbn -[lookup insert]. rewrite lookup_insert_eq.
  repeat split; try done.
  unfold outcome_table.
  destruct (sdb.TransactionActive e), (sdb.TransactionActive e2);
    rewrite Hinv; cbn; done.
Qed.

Lemma run_events_app evs1 evs2 w :
  run_events (evs1 ++ evs2) w = (run_events evs1 ;;; run_events evs2) w.
Proof.
  revert w. induction evs1 as [|ev evs1 IH]; intros w; [reflexivity |].
  cbn [app run_events]. unfold bind.
  destruct (exec_event ev w) as [[[]|msg|] w1]; try reflexivity.
  rewrite IH. reflexivity.
Qed.

(** An operation is a run: the detector's construction, the body, the
    reconciliation of that very detector. *)
Lemma operation_is_run w p body :
  operation p body w =
    run_events (EvNewTxStateChange p :: body
                  ++ [EvCheckAndSet (fresh (dom (changes w)))]) w.
Proof.
  cbn. unfold operation, bind at 1 3 4.
  assert (Hfst : forall o w1, NewTxStateChange p w = (Returned o, w1) ->
                              o = fresh (dom (changes w))).
  { unfold NewTxStateChange, bind, load_conn, load_engine.
    destruct (conns w !! p) as [cn|]; [|discriminate].
    destruct (engines w !! db cn) as [e|]; [|discriminate].
    by intros o w1 [= <- _]. }
  destruct (NewTxStateChange p w) as [[t|msg|] w1] eqn:Hnew; try reflexivity.
  rewrite (Hfst t w1 eq_refl). cbn. rewrite run_events_app.
  unfold bind. destruct (run_events body w1) as [[[]|msg|] w2];
    try reflexivity.
  cbn. unfold bind.
  by destruct (CheckAndSet (fresh (dom (changes w))) w2) as [[[]|msg|] w3].
Qed.

(** C3, as the code has it.  When operations on a connection follow one
    another (each detector is reconciled before the next is built), the
    engine's transaction state moves only between a detector's
    construction and its reconciliation, the clock never reads the zero
    time, and the invariant holds to begin with (as on a new connection
    over an idle session), every reconciliation returns and leaves
    [txStartedAt] set exactly when the engine reported a transaction at
    that reconciliation. *)
Theorem sequential_operations_keep_start_time bodies : forall w p cn e,
  conns w !! p = Some cn ->
  engines w !! db cn = Some e ->
  txStateMu cn = false ->
  time.IsZero (clock w) = false ->
  (time.IsZero (txStartedAt cn) = false <->
   sdb.TransactionActive e = true) ->
  Forall (fun body => forallb engine_or_clock body = true) bodies ->
  exists w',
    run_operations p bodies w = (Returned tt, w') /\
    start_time_tracks_engine w' p.
Proof.
  assert (Hiff : forall z a : bool, (z = false <-> a = true) <-> z = negb a).
  { intros [] []; cbn; intuition congruence. }
  induction bodies as [|body bodies IH]; intros w p cn e Hcn He Hmu Hclk Hinv Hall.
  - exists w. split; [reflexivity |]. by exists cn, e.
  - inversion Hall as [|? ? Hbody Hrest]; subst.
    apply Hiff in Hinv.
    destruct (operation_keeps_start_time w p cn e body
                Hcn He Hmu Hclk Hinv Hbody)
      as (w1 & cn1 & e1 & Hop & Hcn1 & He1 & Hmu1 & Hclk1 & Hinv1).
    apply Hiff in Hinv1.
    destruct (IH w1 p cn1 e1 Hcn1 He1 Hmu1 Hclk1 Hinv1 Hrest)
      as (w' & Hrun & Htracks).
    exists w'. split; [|exact Htracks].
    cbn. unfold bind. by rewrite Hop.
Qed.

Lemma sequential_operations_keep_start_time_witness :
  exists w',
    run_operations 1%positive
      [ [EvEngine 1%positive true; EvClock (time.mkTime 63000000005 0)];
        [EvClock (time.mkTime 63000000009 0); EvEngine 1%positive false] ]
      fresh_world = (Returned tt, w') /\
    start_time_tracks_engine w' 1%positive.
Proof.
  apply (sequential_operations_keep_start_time _ fresh_world 1%positive
           {| db := 1%positive; store := 1%positive; id := 7%N;
              timeMu := false;
              createdAt := time.mkTime 63000000000 0;
              lastUsedAt := time.zero; txStateMu := false;
              txStartedAt := time.zero |} idle_engine);
    try reflexivity.
  - split; discriminate.
  - repeat constructor.
Defined.

(** C3, as stated, fails when detectors overlap: after the run
    [overlapping_run] on a new connection, the last reconciliation has
    returned, the engine reports no transaction, and [txStartedAt] is
    still the time recorded by the first reconciliation. *)
Lemma overlapping_detectors_leave_stale_start :
  fst (run_events overlapping_run fresh_world) = Returned tt /\
  (txStartedAt <$> conns (snd (run_events overlapping_run fresh_world))
                     !! 1%positive) = Some (time.mkTime 63000000005 0) /\
  (sdb.TransactionActive <$>
     engines (snd (run_events overlapping_run fresh_world)) !! 1%positive)
    = Some false /\
  ~ start_time_tracks_engine
      (snd (run_events overlapping_run fresh_world)) 1%positive.
Proof.
  split; [reflexivity |]. split; [reflexivity |]. split; [reflexivity |].
  intros (cn & e & Hcn & He & Hiff).
  assert (Some cn =
          Some {| db := 1%positive; store := 1%positive; id := 7%N;
                  timeMu := false;
                  createdAt := time.mkTime 63000000000 0;
                  lastUsedAt := time.zero; txStateMu := false;
                  txStartedAt := time.mkTime 63000000005 0 |}) as [= ->]
    by (rewrite <- Hcn; reflexivity).
  assert (Some e = Some idle_engine) as [= ->]
    by (rewrite <- He; reflexivity).
  destruct Hiff as [Hiff _]. specialize (Hiff eq_refl). discriminate.
Qed.

(** * Reconciliations side by side *)

(** The cut into steps is the function: a goroutine left alone goes from
    [AtLock] to [Finished] in at most seven steps and ends where
    [CheckAndSet] ends, and it cannot take its first step exactly when
    [CheckAndSet] blocks. *)
Lemma run_thread_CheckAndSet w t :
  match CheckAndSet t w with
  | (Blocked, w') => w' = w /\ thread_step w t AtLock = None
  | (o, w') => run_thread 7 w t AtLock = (w', Finished o)
  end.
Proof.
  destruct (changes w !! t) as [ts|] eqn:Hts.
  2: { unfold_ops. rewrite Hts. cbn. by rewrite Hts. }
  destruct (conns w !! c ts) as [cn|] eqn:Hcn.
  2: { unfold_ops. rewrite Hts, Hcn. cbn. by rewrite Hts, Hcn. }
  destruct (txStateMu cn) eqn:Hmu.
  { rewrite (CheckAndSet_held w t ts cn) by assumption.
    split; [reflexivity |]. cbn. by rewrite Hts, Hcn, Hmu. }
  destruct (done ts) eqn:Hd.
  { rewrite (CheckAndSet_used w t ts cn) by assumption.
    destruct ts as [p tx0 d], cn as [dbp sp i tm ca lu mu old],
      w as [cs es ds clk]; cbn -[lookup insert] in *; subst.
    eval_heap Hts Hcn.
    unfold set_conns, set_changes, with_txStateMu, with_done;
      cbn -[lookup insert].
    eval_heap Hts Hcn.
    by rewrite !insert_insert_eq, (insert_id _ _ _ Hts), (insert_id _ _ _ Hcn). }
  destruct (engines w !! db cn) as [e|] eqn:He.
  - rewrite (CheckAndSet_fresh w t ts cn e) by (done || by split).
    destruct ts as [p tx0 d], cn as [dbp sp i tm ca lu mu old],
      e as [act fk fe]; cbn -[lookup insert] in *; subst.
    destruct (time.IsZero old) eqn:Hz, tx0, act;
      eval_heap Hts Hcn; rewrite ?He; eval_heap Hts Hcn;
      rewrite ?Hz; eval_heap Hts Hcn;
      unfold set_conns, set_changes, with_txStateMu, with_done,
        with_txStartedAt; cbn -[lookup insert];
      rewrite ?insert_insert_eq; reflexivity.
  - unfold_ops. rewrite Hts, Hcn, Hmu. cbn -[lookup insert].
    rewrite Hts, Hd.
    destruct ts as [p tx0 d], cn as [dbp sp i tm ca lu mu old];
      cbn -[lookup insert] in *; subst.
    destruct tx0; eval_heap Hts He; rewrite ?Hcn; eval_heap Hts He;
      unfold set_conns, set_changes, with_txStateMu, with_done,
        with_txStartedAt; cbn -[lookup insert];
      rewrite ?insert_insert_eq; reflexivity.
Qed.

(** No step of a reconciliation moves a detector to another connection. *)
Lemma thread_step_conn_of w t k w' k' :
  thread_step w t k = Some (w', k') ->
  forall t', conn_of w' t' = conn_of w t'.
Proof.
  intros Hstep t'. unfold thread_step in Hstep.
  destruct (changes w !! t) as [ts|] eqn:Hts;
    [destruct (conns w !! c ts) as [cn|] eqn:Hcn |];
    destruct k; try discriminate; simplify_eq; try reflexivity;
    repeat case_match; simplify_eq; try reflexivity.
  unfold conn_of; cbn -[lookup insert].
  destruct (decide (t' = t)) as [->|Hne].
  - by rewrite lookup_insert_eq, Hts.
  - by rewrite lookup_insert_ne.
Qed.

(** A step touches no connection but the detector's own. *)
Lemma thread_step_other_conns w t k w' k' :
  thread_step w t k = Some (w', k') ->
  forall q, conn_of w t <> Some q -> conns w' !! q = conns w !! q.
Proof.
  intros Hstep q Hq. unfold thread_step in Hstep.
  destruct (changes w !! t) as [ts|] eqn:Hts;
    [destruct (conns w !! c ts) as [cn|] eqn:Hcn |];
    destruct k; try discriminate; simplify_eq; try reflexivity;
    repeat case_match; simplify_eq; try reflexivity;
    cbn -[lookup insert]; apply lookup_insert_ne;
    intros <-; apply Hq; unfold conn_of; by rewrite Hts.
Qed.

(** A step that arrives at the write has just read the start time. *)
Lemma thread_step_to_assign w t k w' start :
  thread_step w t k = Some (w', AtAssign start) ->
  w' = w /\
  exists p cn, conn_of w t = Some p /\ conns w !! p = Some cn /\
               time.IsZero (txStartedAt cn) = start.
Proof.
  intros Hstep. unfold thread_step in Hstep.
  destruct (changes w !! t) as [ts|] eqn:Hts;
    [destruct (conns w !! c ts) as [cn|] eqn:Hcn |];
    destruct k; try discriminate; simplify_eq;
    repeat case_match; simplify_eq.
  all: split; [reflexivity |]; exists (c ts), cn; unfold conn_of;
    rewrite Hts; repeat split; try done.
  all: by destruct (time.IsZero (txStartedAt cn)).
Qed.

Lemma mutex_of_insert_ne (w : World) (p q : addr) (cn : Connection) :
  q <> p -> mutex_of (set_conns <[p := cn]> w) q = mutex_of w q.
Proof.
  intros Hne. unfold mutex_of. cbn -[lookup insert].
  by rewrite lookup_insert_ne.
Qed.

Lemma mutex_of_insert_same (w : World) (p q : addr) (cn cn' : Connection) :
  conns w !! p = Some cn -> txStateMu cn' = txStateMu cn ->
  mutex_of (set_conns <[p := cn']> w) q = mutex_of w q.
Proof.
  intros Hcn Hmu. unfold mutex_of. cbn -[lookup insert].
  destruct (decide (q = p)) as [->|Hne].
  - by rewrite lookup_insert_eq, Hcn; cbn; rewrite Hmu.
  - by rewrite lookup_insert_ne.
Qed.

(** Every step of a goroutine whose mutex is held while it is inside is
    of one of the four kinds. *)
Lemma thread_step_kind w t k w' k' :
  thread_step w t k = Some (w', k') ->
  (in_critical k = true ->
   exists p, conn_of w t = Some p /\ mutex_of w p = Some true) ->
  step_kind w t k w' k'.
Proof.
  intros Hstep Hin. unfold thread_step in Hstep.
  destruct (in_critical k) eqn:Hk.
  - destruct (Hin eq_refl) as (p & Hp & Hmu). clear Hin.
    unfold conn_of in Hp. unfold mutex_of in Hmu.
    apply fmap_Some in Hp as (ts & Hts & ->).
    apply fmap_Some in Hmu as (cn & Hcn & Hheld).
    rewrite Hts, Hcn in Hstep.
    destruct k; try discriminate; simplify_eq.
    + (* AtDone *)
      destruct (done ts); simplify_eq; by apply kind_inside.
    + (* AtEngine *)
      repeat case_match; simplify_eq; by apply kind_inside.
    + (* AtStarted *)
      repeat case_match; simplify_eq; by apply kind_inside.
    + (* AtAssign *)
      apply kind_inside; try done.
      intros q. by apply (mutex_of_insert_same w (c ts) q cn).
    + (* AtSetDone *)
      by apply kind_inside.
    + (* AtUnlock *)
      rewrite <- Hheld in Hstep. simplify_eq.
      apply (kind_leave _ _ _ _ _ (c ts)); try done.
      * unfold conn_of. by rewrite Hts.
      * unfold mutex_of. cbn -[lookup insert]. by rewrite lookup_insert_eq.
      * intros q Hq. by apply mutex_of_insert_ne.
  - clear Hin. destruct k; try discriminate.
    destruct (changes w !! t) as [ts|] eqn:Hts;
      [destruct (conns w !! c ts) as [cn|] eqn:Hcn |]; simplify_eq;
      try by apply kind_fail.
    destruct (txStateMu cn) eqn:Hmu; simplify_eq.
    apply (kind_enter _ _ _ _ _ (c ts)); try done.
    + unfold conn_of. by rewrite Hts.
    + unfold mutex_of. by rewrite Hcn; cbn; rewrite Hmu.
    + unfold mutex_of. cbn -[lookup insert]. by rewrite lookup_insert_eq.
    + intros q Hq. by apply mutex_of_insert_ne.
Qed.

(** Who is inside which critical section after goroutine [i] has moved. *)
Lemma holder_step s i t k w' k' j q :
  threads s !! i = Some (t, k) ->
  (forall t', conn_of w' t' = conn_of (world s) t') ->
  holder {| world := w'; threads := <[i := (t, k')]> (threads s) |} j q <->
  (j <> i /\ holder s j q) \/
  (j = i /\ in_critical k' = true /\ conn_of (world s) t = Some q).
Proof.
  intros Hi Hconn. unfold holder; cbn.
  assert (Hlen : (i < length (threads s))%nat) by (by eapply lookup_lt_Some).
  destruct (decide (j = i)) as [->|Hne].
  - rewrite list_lookup_insert_eq by done. split.
    + intros (t0 & k0 & [= <- <-] & Hk & Hc). right.
      rewrite Hconn in Hc. done.
    + intros [[? _]|(_ & Hk & Hc)]; [done |].
      exists t, k'. rewrite Hconn. done.
  - rewrite list_lookup_insert_ne by done. split.
    + intros (t0 & k0 & Hj & Hk & Hc). left. split; [done |].
      exists t0, k0. rewrite Hconn in Hc. done.
    + intros [[_ (t0 & k0 & Hj & Hk & Hc)]|[? _]]; [|done].
      exists t0, k0. rewrite Hconn. done.
Qed.

(** A goroutine's step keeps the process coherent. *)
Lemma coherent_thread_step s i t k w' k' :
  coherent s ->
  threads s !! i = Some (t, k) ->
  thread_step (world s) t k = Some (w', k') ->
  coherent {| world := w'; threads := <[i := (t, k')]> (threads s) |}.
Proof.
  intros Hcoh Hi Hstep.
  pose proof (thread_step_conn_of _ _ _ _ _ Hstep) as Hconn.
  assert (Hlen : (i < length (threads s))%nat) by (by eapply lookup_lt_Some).
  assert (Hself : in_critical k = true -> forall p,
            conn_of (world s) t = Some p -> holder s i p).
  { intros Hk p Hp. by exists t, k. }
  assert (Hkind : step_kind (world s) t k w' k').
  { apply thread_step_kind; [done |]. intros Hk.
    destruct (coh_alloc s Hcoh i t k Hi Hk) as [p Hp].
    exists p. split; [done |]. eapply coh_locked; eauto. }
  assert (Hnot : in_critical k = false -> forall p, ~ holder s i p).
  { intros Hk p (t0 & k0 & Hi0 & Hk0 & _). congruence. }
  split.
  - (* coh_alloc *)
    intros j t0 k0 Hj Hk0. cbn in *. rewrite Hconn.
    destruct (decide (j = i)) as [->|Hne].
    + rewrite list_lookup_insert_eq in Hj by done. simplify_eq.
      destruct Hkind as [p ? ? Hp|? ? ?|Hk ? ?|p ? ? ?]; try congruence.
      * by rewrite Hp.
      * eapply coh_alloc; eauto.
    + rewrite list_lookup_insert_ne in Hj by done.
      eapply coh_alloc; eauto.
  - (* coh_locked *)
    intros j q Hj. apply (holder_step s i t k w' k' j q Hi Hconn) in Hj.
    cbn. destruct Hj as [[Hne Hj]|(-> & Hk' & Hq)].
    + pose proof (coh_locked s Hcoh j q Hj) as Hmu.
      destruct Hkind as [p ? ? Hp Hfree ? Hoth|? ? ->|? ? Hsame
                        |p Hk ? Hp ? Hoth]; try done.
      * rewrite Hoth; [done |]. intros ->. congruence.
      * by rewrite Hsame.
      * rewrite Hoth; [done |]. intros ->.
        apply Hne. eapply coh_alone; eauto.
    + destruct Hkind as [p ? ? Hp Hfree Hheld Hoth|? ? ->|Hk ? Hsame
                        |p Hk ? Hp ? Hoth]; try congruence.
      rewrite Hsame. eapply coh_locked; eauto.
  - (* coh_owner *)
    intros q Hq. cbn in Hq.
    assert (Hold : mutex_of (world s) q = Some true ->
              (forall p, holder s i p -> in_critical k' = true) ->
              exists j, holder
                {| world := w'; threads := <[i := (t, k')]> (threads s) |} j q).
    { intros Hmu Hkeep. destruct (coh_owner s Hcoh q Hmu) as [j Hj].
      exists j. apply (holder_step s i t k w' k' j q Hi Hconn).
      destruct (decide (j = i)) as [->|Hne]; [right | by left].
      split; [done |]. split; [by eapply Hkeep |].
      destruct Hj as (t0 & k0 & Hi0 & _ & Hc). congruence. }
    destruct Hkind as [p Hk Hk' Hp Hfree Hheld Hoth|Hk ? ->|Hk Hk' Hsame
                      |p Hk Hk' Hp Hfree Hoth].
    + destruct (decide (q = p)) as [->|Hne].
      * exists i. apply (holder_step s i t k w' k' i p Hi Hconn). by right.
      * rewrite Hoth in Hq by done. by apply Hold.
    + apply Hold; [done |]. intros p Hp. exfalso.
      eapply Hnot; [|exact Hp]. by subst.
    + rewrite Hsame in Hq. by apply Hold.
    + destruct (decide (q = p)) as [->|Hne]; [congruence |].
      rewrite Hoth in Hq by done.
      destruct (coh_owner s Hcoh q Hq) as [j Hj].
      exists j. apply (holder_step s i t k w' k' j q Hi Hconn). left.
      split; [|done]. intros ->.
      destruct Hj as (t0 & k0 & Hi0 & _ & Hc). congruence.
  - (* coh_alone *)
    intros j1 j2 q H1 H2.
    apply (holder_step s i t k w' k' j1 q Hi Hconn) in H1.
    apply (holder_step s i t k w' k' j2 q Hi Hconn) in H2.
    assert (Hmix : forall j, j <> i -> holder s j q ->
              in_critical k' = true -> conn_of (world s) t = Some q -> False).
    { intros j Hne Hj Hk' Hq.
      destruct Hkind as [p Hk ? Hp Hfree ? ?|? ? ?|Hk ? ?|p ? ? ? ? ?];
        try congruence.
      - pose proof (coh_locked s Hcoh j q Hj). congruence.
      - apply Hne. eapply coh_alone; eauto. }
    destruct H1 as [[Hne1 H1]|(-> & Hk1 & Hq1)],
             H2 as [[Hne2 H2]|(-> & Hk2 & Hq2)]; try done.
    + eapply coh_alone; eauto.
    + exfalso. eauto.
    + exfalso. eauto.
  - (* coh_snapshot *)
    intros j t0 start q cn Hj Hq Hcn. cbn in *. rewrite Hconn in Hq.
    destruct (decide (j = i)) as [->|Hne].
    + rewrite list_lookup_insert_eq in Hj by done. simplify_eq.
      destruct (thread_step_to_assign _ _ _ _ _ Hstep)
        as (-> & p & cn0 & Hp & Hcn0 & Hz). congruence.
    + rewrite list_lookup_insert_ne in Hj by done.
      assert (Hjq : holder s j q) by (by exists t0, (AtAssign start)).
      assert (Hcn' : conns (world s) !! q = Some cn).
      { destruct (decide (conn_of (world s) t = Some q)) as [Hsame|Hdiff].
        - destruct Hkind as [p ? ? Hp Hfree ? ?|? ? ->|Hk ? ?|p Hk ? ? ? ?];
            try done.
          + pose proof (coh_locked s Hcoh j q Hjq). congruence.
          + exfalso. apply Hne. eapply coh_alone; eauto.
          + exfalso. apply Hne. eapply coh_alone; eauto.
        - by rewrite <- (thread_step_other_conns _ _ _ _ _ Hstep q Hdiff). }
      eapply coh_snapshot; eauto.
Qed.

(** Coherence only looks at the connections, at the detectors of the
    goroutines inside, and at who is inside. *)
Lemma coherent_transfer s s' :
  coherent s ->
  conns (world s') = conns (world s) ->
  (forall t, is_Some (conn_of (world s) t) ->
             conn_of (world s') t = conn_of (world s) t) ->
  (forall j t k, threads s' !! j = Some (t, k) -> in_critical k = true ->
                 threads s !! j = Some (t, k)) ->
  (forall j t k, threads s !! j = Some (t, k) ->
                 threads s' !! j = Some (t, k)) ->
  coherent s'.
Proof.
  intros Hcoh Hconns Hdet Hback Hfwd.
  assert (Hmu : forall q, mutex_of (world s') q = mutex_of (world s) q).
  { intros q. unfold mutex_of. by rewrite Hconns. }
  assert (Hh : forall j q, holder s' j q <-> holder s j q).
  { intros j q. split; intros (t & k & Hj & Hk & Hq).
    - exists t, k. pose proof (Hback j t k Hj Hk) as Hj'.
      rewrite Hdet in Hq by (eapply coh_alloc; eauto). done.
    - exists t, k. rewrite Hdet by (eapply coh_alloc; eauto).
      split; [by apply Hfwd | done]. }
  split.
  - intros j t k Hj Hk. pose proof (Hback j t k Hj Hk) as Hj'.
    rewrite Hdet; eapply coh_alloc; eauto.
  - intros j q Hj. rewrite Hmu. apply Hh in Hj. eapply coh_locked; eauto.
  - intros q Hq. rewrite Hmu in Hq.
    destruct (coh_owner s Hcoh q Hq) as [j Hj]. exists j. by apply Hh.
  - intros j1 j2 q H1 H2. apply Hh in H1, H2. eapply coh_alone; eauto.
  - intros j t start q cn Hj Hq Hcn.
    pose proof (Hback j t _ Hj eq_refl) as Hj'.
    rewrite Hdet in Hq by (eapply coh_alloc; eauto).
    rewrite Hconns in Hcn. eapply coh_snapshot; eauto.
Qed.

(** The surroundings touch no connection and no existing detector. *)
Lemma env_event_effect ev w w' :
  env_event ev = true ->
  exec_event ev w = (Returned tt, w') ->
  conns w' = conns w /\
  forall t, is_Some (conn_of w t) -> conn_of w' t = conn_of w t.
Proof.
  intros Hev Hexec. destruct ev as [p|d active|now|t]; try discriminate;
    cbn in Hexec.
  - unfold bind, NewTxStateChange, bind, load_conn, load_engine, ret in Hexec.
    destruct (conns w !! p) as [cn|]; [|discriminate].
    destruct (engines w !! db cn) as [e|]; [|discriminate].
    simplify_eq. split; [reflexivity |].
    intros t Ht. unfold conn_of in *. cbn -[lookup insert].
    rewrite lookup_insert_ne; [done |]. intros <-.
    rewrite fmap_is_Some in Ht. apply elem_of_dom in Ht.
    by apply is_fresh in Ht.
  - by simplify_eq.
  - by simplify_eq.
Qed.

Lemma coherent_initial s : initial s -> coherent s.
Proof.
  intros [Hnil Hfree].
  assert (Hnone : forall i p, ~ holder s i p).
  { intros i p (t & k & Hi & _). by rewrite Hnil in Hi. }
  split.
  - intros i t k Hi. by rewrite Hnil in Hi.
  - intros i p Hi. by apply Hnone in Hi.
  - intros p Hp. unfold mutex_of in Hp.
    apply fmap_Some in Hp as (cn & Hcn & Hmu).
    apply Hfree in Hcn. congruence.
  - intros i j p Hi. by apply Hnone in Hi.
  - intros i t start p cn Hi. by rewrite Hnil in Hi.
Qed.

Lemma coherent_step s s' : coherent s -> sys_step s s' -> coherent s'.
Proof.
  intros Hcoh Hstep. destruct Hstep as [s i t k w' k' Hi Hth|s ev w' Hev Hex|s t].
  - by eapply coherent_thread_step.
  - destruct (env_event_effect ev (world s) w' Hev Hex) as [Hc Hd].
    by apply (coherent_transfer s).
  - apply (coherent_transfer s); cbn; try done.
    + intros j t0 k Hj Hk.
      destruct (decide (j < length (threads s))%nat) as [Hlt|Hge].
      * by rewrite lookup_app_l in Hj.
      * rewrite lookup_app_r in Hj by lia.
        destruct (j - length (threads s))%nat; cbn in Hj; by simplify_eq.
    + intros j t0 k Hj. rewrite lookup_app_l; [done |].
      by eapply lookup_lt_Some.
Qed.






(** * Further properties of the connection's methods *)

Lemma to_uint_parses (n : N) :
  N.of_uint <$> NilZero.uint_of_string (NilZero.string_of_uint (N.to_uint n))
  = Some n.
Proof.
  rewrite NilZero.usu.
  - cbn. f_equal. apply DecimalN.Unsigned.of_to.
  - destruct n as [|q]; [discriminate |].
    apply DecimalPos.Unsigned.to_uint_nonnil.
Qed.

(** X1.  [String] returns the text connection: followed by decimal digits
    that read back as the connection's id; hence two connections print
    alike exactly when they carry the same id. *)
Theorem Connection_String_identifies w p q cp cq :
  conns w !! p = Some cp ->
  conns w !! q = Some cq ->
  (exists digits,
      Connection_String p w = (Returned ("connection:" +:+ digits), w) /\
      N.of_uint <$> NilZero.uint_of_string digits = Some (id cp)) /\
  (fst (Connection_String p w) = fst (Connection_String q w) <->
   id cp = id cq).
Proof.
  intros Hp Hq. unfold Connection_String, bind, load_conn, ret.
  rewrite Hp, Hq. cbn [fst]. split.
  - eexists. split; [reflexivity | apply to_uint_parses].
  - split; [|by intros ->].
    intros [= Heq]. apply String.app_inj in Heq.
    pose proof (to_uint_parses (id cp)) as Hcp.
    rewrite Heq, to_uint_parses in Hcp. by injection Hcp.
Qed.

Lemma Connection_String_identifies_witness :
  (exists digits,
      Connection_String 1%positive sample_world =
        (Returned ("connection:" +:+ digits), sample_world) /\
      N.of_uint <$> NilZero.uint_of_string digits = Some 7%N) /\
  (fst (Connection_String 1%positive sample_world) =
   fst (Connection_String 1%positive sample_world) <-> 7%N = 7%N).
Proof.
  apply (Connection_String_identifies sample_world 1%positive 1%positive
           sample_conn sample_conn); reflexivity.
Defined.

(** X2.  Against any store, [Execute] makes exactly one call, to
    [execute] of the connection's own store with the connection itself
    and the caller's request untouched, and its outcome is that call's
    outcome: response and error as they came, a panic not recovered. *)
Theorem Execute_forwards
    (S : Type)
    (execute : addr -> addr -> ExecuteRequest -> S ->
               outcome execute_reply * S)
    (st : S) (w : World) (p : addr) (cn : Connection)
    (ex : ExecuteRequest) :
  conns w !! p = Some cn ->
  run_prog S execute (Execute p ex w) st =
    ([(store cn, p, ex)],
     fst (execute (store cn) p ex st), snd (execute (store cn) p ex st)).
Proof.
  intros Hcn. unfold Execute. rewrite Hcn. cbn.
  by destruct (execute (store cn) p ex st) as [[r|msg|] st1].
Qed.

Lemma Execute_forwards_witness :
  run_prog nat sample_execute
    (Execute 1%positive
       {| Queries := ["ROLLBACK"]; Timings := true; Tx := false |}
       sample_world) 0%nat =
    ([(1%positive, 1%positive,
       {| Queries := ["ROLLBACK"]; Timings := true; Tx := false |})],
     Returned (None, Some "cannot rollback - no transaction is active"),
     1%nat).
Proof.
  apply (Execute_forwards nat sample_execute 0%nat sample_world 1%positive
           sample_conn); reflexivity.
Defined.

(** X3.  [AbortTransaction] is [Execute] on the rollback request with the
    response dropped: same calls, same final store, and the same outcome
    up to keeping only the error, on every connection, nil included. *)
Theorem AbortTransaction_is_Execute_rollback
    (S : Type)
    (execute : addr -> addr -> ExecuteRequest -> S ->
               outcome execute_reply * S)
    (st : S) (w : World) (p : addr) :
  run_prog S execute (AbortTransaction p w) st =
    let '(calls, o, st') :=
      run_prog S execute (Execute p rollback_request w) st in
    (calls, outcome_map snd o, st').
Proof.
  unfold AbortTransaction, Execute, rollback_request.
  destruct (conns w !! p) as [cn|]; [|reflexivity]. cbn.
  by destruct (execute _ _ _ st) as [[[resp err]|msg|] st1].
Qed.

(** X4.  [ExecuteOrAbort], [Query] and [Close] each make exactly one call
    to the connection's own store (execute-or-abort, query, disconnect),
    passing the connection itself and the caller's request, and hand back
    that call's outcome unchanged. *)
Theorem delegating_methods_forward
    (S : Type) (serve : forall X, store_call X -> S -> outcome X * S)
    (st : S) (w : World) (p : addr) (cn : Connection)
    (ex : ExecuteRequest) (qr : addr) :
  conns w !! p = Some cn ->
  run_method S serve (ExecuteOrAbort p ex w) st =
    ([existT _ (call_executeOrAbort (store cn) p ex)],
     fst (serve _ (call_executeOrAbort (store cn) p ex) st),
     snd (serve _ (call_executeOrAbort (store cn) p ex) st)) /\
  run_method S serve (Query p qr w) st =
    ([existT _ (call_query (store cn) p qr)],
     fst (serve _ (call_query (store cn) p qr) st),
     snd (serve _ (call_query (store cn) p qr) st)) /\
  run_method S serve (Close p w) st =
    ([existT _ (call_disconnect (store cn) p)],
     fst (serve _ (call_disconnect (store cn) p) st),
     snd (serve _ (call_disconnect (store cn) p) st)).
Proof.
  intros Hcn. unfold ExecuteOrAbort, Query, Close. rewrite Hcn. cbn.
  repeat split.
  - by destruct (serve _ (call_executeOrAbort (store cn) p ex) st)
      as [[r|msg|] st1].
  - by destruct (serve _ (call_query (store cn) p qr) st) as [[r|msg|] st1].
  - by destruct (serve _ (call_disconnect (store cn) p) st)
      as [[r|msg|] st1].
Qed.

Lemma delegating_methods_forward_witness :
  run_method nat sample_serve
    (ExecuteOrAbort 1%positive rollback_request sample_world) 0%nat =
    ([existT _ (call_executeOrAbort 1%positive 1%positive rollback_request)],
     Returned (Some 9%positive, None), 1%nat) /\
  run_method nat sample_serve (Query 1%positive 5%positive sample_world)
    0%nat =
    ([existT _ (call_query 1%positive 1%positive 5%positive)],
     Returned (Some 9%positive, None), 1%nat) /\
  run_method nat sample_serve (Close 1%positive sample_world) 0%nat =
    ([existT _ (call_disconnect 1%positive 1%positive)],
     Returned None, 1%nat).
Proof.
  apply (delegating_methods_forward nat sample_serve 0%nat sample_world
           1%positive sample_conn rollback_request 5%positive).
  reflexivity.
Defined.

(** X5.  On a nil connection every method panics with a nil dereference
    at its first field access: nothing is written, no detector is built,
    and the store is not called. *)
Theorem methods_on_nil_connection
    (S : Type)
    (execute : addr -> addr -> ExecuteRequest -> S ->
               outcome execute_reply * S)
    (serve : forall X, store_call X -> S -> outcome X * S)
    (enabledFromBool : bool -> string)
    (json_Marshal : gmap string value -> list Byte.byte * error)
    (st : S) (w : World) (p : addr) (ex : ExecuteRequest) (qr : addr) :
  conns w !! p = None ->
  ID p w = (Panicked nil_dereference, w) /\
  Connection_String p w = (Panicked nil_dereference, w) /\
  MarshalJSON enabledFromBool json_Marshal p w =
    (Panicked nil_dereference, w) /\
  NewTxStateChange p w = (Panicked nil_dereference, w) /\
  run_prog S execute (Execute p ex w) st =
    ([], Panicked nil_dereference, st) /\
  run_prog S execute (AbortTransaction p w) st =
    ([], Panicked nil_dereference, st) /\
  run_method S serve (ExecuteOrAbort p ex w) st =
    ([], Panicked nil_dereference, st) /\
  run_method S serve (Query p qr w) st =
    ([], Panicked nil_dereference, st) /\
  run_method S serve (Close p w) st = ([], Panicked nil_dereference, st).
Proof.
  intros Hnil.
  unfold ID, Connection_String, MarshalJSON, NewTxStateChange, Execute,
    AbortTransaction, ExecuteOrAbort, Query, Close, bind, load_conn.
  rewrite Hnil. by repeat split.
Qed.

Lemma methods_on_nil_connection_witness :
  ID 2%positive sample_world = (Panicked nil_dereference, sample_world) /\
  Connection_String 2%positive sample_world =
    (Panicked nil_dereference, sample_world) /\
  MarshalJSON (fun b : bool => if b then "enabled" else "disabled")
    (fun _ => ([], None)) 2%positive sample_world =
    (Panicked nil_dereference, sample_world) /\
  NewTxStateChange 2%positive sample_world =
    (Panicked nil_dereference, sample_world) /\
  run_prog nat sample_execute (Execute 2%positive rollback_request
                                 sample_world) 0%nat =
    ([], Panicked nil_dereference, 0%nat) /\
  run_prog nat sample_execute (AbortTransaction 2%positive sample_world)
    0%nat = ([], Panicked nil_dereference, 0%nat) /\
  run_method nat sample_serve
    (ExecuteOrAbort 2%positive rollback_request sample_world) 0%nat =
    ([], Panicked nil_dereference, 0%nat) /\
  run_method nat sample_serve (Query 2%positive 5%positive sample_world)
    0%nat = ([], Panicked nil_dereference, 0%nat) /\
  run_method nat sample_serve (Close 2%positive sample_world) 0%nat =
    ([], Panicked nil_dereference, 0%nat).
Proof.
  apply (methods_on_nil_connection nat sample_execute sample_serve
           (fun b : bool => if b then "enabled" else "disabled")
           (fun _ => ([], None)) 0%nat sample_world 2%positive
           rollback_request 5%positive).
  reflexivity.
Defined.

(** * Further properties of the detector *)

(** Every way a call of [CheckAndSet] can go: a nil dereference before
    the mutex is taken, a wait on a held mutex, or a finished call whose
    only writes are the start time and the done flag, the new start time
    being the old one, the clock reading over an unset one, or the zero
    time over a set one. *)
Lemma CheckAndSet_cases w t :
  (CheckAndSet t w = (Panicked nil_dereference, w) /\
   (changes w !! t = None \/
    exists ts, changes w !! t = Some ts /\ conns w !! c ts = None)) \/
  (exists ts cn,
      changes w !! t = Some ts /\ conns w !! c ts = Some cn /\
      txStateMu cn = true /\ CheckAndSet t w = (Blocked, w)) \/
  (exists ts cn o v,
      changes w !! t = Some ts /\ conns w !! c ts = Some cn /\
      txStateMu cn = false /\ o <> Blocked /\
      CheckAndSet t w =
        (o, set_changes <[t := with_done true ts]>
              (set_conns <[c ts := with_txStartedAt v cn]> w)) /\
      (v = txStartedAt cn \/
       (time.IsZero (txStartedAt cn) = true /\ v = clock w) \/
       (time.IsZero (txStartedAt cn) = false /\ v = time.zero))).
Proof.
  destruct (changes w !! t) as [ts|] eqn:Hts.
  2: { left. split; [|by left]. unfold_ops. by rewrite Hts. }
  destruct (conns w !! c ts) as [cn|] eqn:Hcn.
  2: { left. split; [|right; by exists ts]. unfold_ops. by rewrite Hts, Hcn. }
  destruct (txStateMu cn) eqn:Hmu.
  { right. left. exists ts, cn. repeat split; try done.
    by apply (CheckAndSet_held w t ts cn). }
  right. right. exists ts, cn.
  assert (Hsame : set_changes <[t := with_done true ts]>
                    (set_conns <[c ts := with_txStartedAt (txStartedAt cn) cn]> w)
                  = set_changes <[t := with_done true ts]> (set_conns <[c ts := cn]> w))
    by (by destruct cn).
  destruct (done ts) eqn:Hd.
  - exists (Panicked "CheckAndSet should only be called once"), (txStartedAt cn).
    repeat split; try done; [|by left].
    rewrite (CheckAndSet_used w t ts cn) by assumption. f_equal.
    rewrite Hsame.
    replace (with_done true ts) with ts by (destruct ts; cbn in Hd; by subst).
    by rewrite (set_conns_id _ _ _ Hcn), (set_changes_id _ _ _ Hts).
  - destruct (engines w !! db cn) as [e|] eqn:He.
    + exists (Returned tt),
        (outcome_table (tx ts) (sdb.TransactionActive e)
                       (txStartedAt cn) (clock w)).
      repeat split; try done; [by apply CheckAndSet_fresh |].
      unfold outcome_table.
      destruct (tx ts), (sdb.TransactionActive e),
        (time.IsZero (txStartedAt cn)); auto.
    + exists (Panicked nil_dereference), (txStartedAt cn).
      repeat split; try done; [|by left].
      unfold_ops. rewrite Hts, Hcn, Hmu. cbn -[lookup insert].
      rewrite Hts, Hd.
      destruct ts as [p tx0 d], cn as [dbp sp i tm ca lu mu old];
        cbn -[lookup insert] in *; subst.
      destruct tx0; eval_heap Hts He;
        unfold set_changes, set_conns, with_txStartedAt, with_txStateMu;
        cbn -[lookup insert]; rewrite ?insert_insert_eq; reflexivity.
Qed.

(** X6.  However a call of [CheckAndSet] goes, whatever the detector's
    flags, it never replaces a start time by another time: a set start
    time is kept or cleared, an unset one is kept or set to the clock
    reading. *)
Theorem CheckAndSet_never_restamps w t ts cn :
  changes w !! t = Some ts ->
  conns w !! c ts = Some cn ->
  exists o w' cn',
    CheckAndSet t w = (o, w') /\
    conns w' !! c ts = Some cn' /\
    (txStartedAt cn' = txStartedAt cn \/
     (time.IsZero (txStartedAt cn) = true /\ txStartedAt cn' = clock w) \/
     (time.IsZero (txStartedAt cn) = false /\ txStartedAt cn' = time.zero)).
Proof.
  intros Hts Hcn.
  destruct (CheckAndSet_cases w t)
    as [[Hrun _]|[(ts' & cn' & _ & _ & _ & Hrun)
                 |(ts' & cn' & o & v & Hts' & Hcn' & _ & _ & Hrun & Hv)]].
  - exists (Panicked nil_dereference), w, cn. auto.
  - exists Blocked, w, cn. auto.
  - rewrite Hts in Hts'. injection Hts' as <-.
    rewrite Hcn in Hcn'. injection Hcn' as <-.
    exists o. eexists. exists (with_txStartedAt v cn).
    split; [exact Hrun |]. split; [|exact Hv].
    cbn -[lookup insert]. by rewrite lookup_insert_eq.
Qed.

Lemma CheckAndSet_never_restamps_witness :
  exists o w' cn',
    CheckAndSet 1%positive sample_world_started = (o, w') /\
    conns w' !! 1%positive = Some cn' /\
    (txStartedAt cn' = sample_started \/
     (time.IsZero sample_started = true /\
      txStartedAt cn' = clock sample_world_started) \/
     (time.IsZero sample_started = false /\ txStartedAt cn' = time.zero)).
Proof.
  apply (CheckAndSet_never_restamps sample_world_started 1%positive
           sample_change (with_txStartedAt sample_started sample_conn));
    reflexivity.
Defined.

(** X7.  [CheckAndSet] waits on the mutex exactly when its detector and
    the detector's connection exist and that connection's mutex is held;
    a call that waits, and a call on a nil detector or on a detector
    without connection (which panics before any [defer]), write nothing:
    in particular [done] is not set. *)
Theorem CheckAndSet_waits_iff_held w t :
  (fst (CheckAndSet t w) = Blocked <->
   exists ts cn, changes w !! t = Some ts /\ conns w !! c ts = Some cn /\
                 txStateMu cn = true) /\
  (fst (CheckAndSet t w) = Blocked -> snd (CheckAndSet t w) = w) /\
  (changes w !! t = None \/
   (exists ts, changes w !! t = Some ts /\ conns w !! c ts = None) ->
   CheckAndSet t w = (Panicked nil_dereference, w)).
Proof.
  destruct (CheckAndSet_cases w t)
    as [[Hrun Hnil]|[(ts & cn & Hts & Hcn & Hmu & Hrun)
                    |(ts & cn & o & v & Hts & Hcn & Hmu & Ho & Hrun & _)]];
    rewrite Hrun; cbn [fst snd].
  - split; [split; [done |] | split; [done | done]].
    intros (ts & cn & Hts & Hcn & _).
    destruct Hnil as [Hnil|(ts' & Hts' & Hnil)]; congruence.
  - split; [split; [intros _; by exists ts, cn | done] |].
    split; [done |].
    intros [Hnil|(ts' & Hts' & Hnil)]; congruence.
  - split; [split; [done |] |].
    + intros (ts' & cn' & Hts' & Hcn' & Hmu'). congruence.
    + split; [done |].
      intros [Hnil|(ts' & Hts' & Hnil)]; congruence.
Qed.

(** Each event keeps every connection in place with its identity. *)
Lemma exec_event_identity ev w o w' :
  exec_event ev w = (o, w') ->
  forall p cn, conns w !! p = Some cn ->
    exists cn', conns w' !! p = Some cn' /\ same_identity cn cn'.
Proof.
  intros Hexec p cn Hp.
  assert (Hrefl : same_identity cn cn) by (by repeat split).
  destruct ev as [q|d active|now|t]; cbn in Hexec.
  - unfold bind, NewTxStateChange, bind, load_conn, load_engine, ret in Hexec.
    destruct (conns w !! q) as [cq|]; [|simplify_eq; eauto].
    destruct (engines w !! db cq) as [e|]; simplify_eq; eauto.
  - simplify_eq. eauto.
  - simplify_eq. eauto.
  - destruct (CheckAndSet_cases w t)
      as [[Hrun _]|[(ts & cn0 & _ & _ & _ & Hrun)
                   |(ts & cn0 & o' & v & Hts & Hcn & _ & _ & Hrun & _)]];
      rewrite Hrun in Hexec; simplify_eq; eauto.
    cbn -[lookup insert]. destruct (decide (p = c ts)) as [->|Hne].
    + rewrite lookup_insert_eq. eexists. split; [reflexivity |].
      rewrite Hp in Hcn. by simplify_eq.
    + rewrite lookup_insert_ne by done. eauto.
Qed.

(** Each event leaves every mutex free if it found them all free, and
    does not wait. *)
Lemma exec_event_all_free ev w :
  all_free w ->
  exists o w', exec_event ev w = (o, w') /\ o <> Blocked /\ all_free w'.
Proof.
  intros Hfree. destruct ev as [q|d active|now|t]; cbn.
  - unfold bind, NewTxStateChange, bind, load_conn, load_engine, ret.
    destruct (conns w !! q) as [cq|]; [|by eauto].
    destruct (engines w !! db cq) as [e|]; by eauto.
  - by eauto.
  - by eauto.
  - destruct (CheckAndSet_cases w t)
      as [[Hrun _]|[(ts & cn0 & _ & Hcn & Hmu & _)
                   |(ts & cn0 & o' & v & Hts & Hcn & Hmu & Ho & Hrun & _)]].
    + rewrite Hrun. by eauto.
    + apply Hfree in Hcn. cbn in Hcn. congruence.
    + rewrite Hrun. do 2 eexists. split; [reflexivity |]. split; [done |].
      unfold all_free. cbn -[lookup insert].
      apply map_Forall_insert_2; [exact Hmu | exact Hfree].
Qed.

(** X8.  In a run of events taken one after the other from a state where
    every transaction-state mutex is free, no reconciliation ever waits,
    and at the end of the run, also of a run cut short by a panic, every
    mutex is free again: the deferred unlock always runs. *)
Theorem run_events_release_mutexes evs : forall w,
  all_free w ->
  exists o w', run_events evs w = (o, w') /\ o <> Blocked /\ all_free w'.
Proof.
  induction evs as [|ev evs IH]; intros w Hfree.
  - exists (Returned tt), w. by repeat split.
  - destruct (exec_event_all_free ev w Hfree) as (o & w1 & Hex & Ho & Hfree1).
    cbn. unfold bind. rewrite Hex.
    destruct o as [[]|msg|]; [|by eauto|done].
    by apply IH.
Qed.

Lemma run_events_release_mutexes_witness :
  exists o w',
    run_events (overlapping_run ++ [EvCheckAndSet 1%positive]) fresh_world
      = (o, w') /\
    o <> Blocked /\ all_free w'.
Proof.
  apply (run_events_release_mutexes _ fresh_world).
  apply map_Forall_insert_2; [reflexivity | apply map_Forall_empty].
Defined.

Lemma run_events_identity evs : forall w o w',
  run_events evs w = (o, w') ->
  forall p cn, conns w !! p = Some cn ->
    exists cn', conns w' !! p = Some cn' /\ same_identity cn cn'.
Proof.
  induction evs as [|ev evs IH]; intros w o w' Hrun p cn Hp.
  - cbn in Hrun. unfold ret in Hrun. simplify_eq. exists cn.
    split; [done | by repeat split].
  - cbn in Hrun. unfold bind in Hrun.
    destruct (exec_event ev w) as [o1 w1] eqn:Hex.
    destruct (exec_event_identity ev w o1 w1 Hex p cn Hp)
      as (cn1 & Hp1 & Hid1).
    destruct o1 as [[]|msg|];
      [|simplify_eq; exists cn1; by split ..].
    destruct (IH w1 o w' Hrun p cn1 Hp1) as (cn' & Hp' & Hid').
    exists cn'. split; [done |].
    destruct Hid1 as (? & ? & ? & ? & ? & ?), Hid' as (? & ? & ? & ? & ? & ?).
    repeat split; congruence.
Qed.

(** X9.  What [NewConnection] is given stays for good: after any run of
    events on the new connection (detectors built and reconciled, engine
    and clock moving, the run ending in a return or in a panic), [ID]
    still returns the id passed at construction, and the creation time,
    the engine session and the store are those of the construction. *)
Theorem ID_is_immutable w dbc s i evs :
  exists p w1 o w2 cn,
    NewConnection dbc s i w = (Returned p, w1) /\
    run_events evs w1 = (o, w2) /\
    ID p w2 = (Returned i, w2) /\
    conns w2 !! p = Some cn /\
    createdAt cn = clock w /\ db cn = dbc /\ store cn = s /\
    lastUsedAt cn = time.zero.
Proof.
  destruct (NewConnection_alloc w dbc s i) as [_ Hnew].
  set (p := fresh (dom (conns w))) in *.
  set (cn0 := {| db := dbc; store := s; id := i;
                 timeMu := false; createdAt := clock w;
                 lastUsedAt := time.zero; txStateMu := false;
                 txStartedAt := time.zero |}) in *.
  destruct (run_events evs (set_conns <[p := cn0]> w)) as [o w2] eqn:Hrun.
  destruct (run_events_identity evs _ o w2 Hrun p cn0) as (cn & Hp & Hid).
  { cbn -[lookup insert]. by rewrite lookup_insert_eq. }
  destruct Hid as (Hi & Hc & Hl & Hd & Hs & _).
  exists p, (set_conns <[p := cn0]> w), o, w2, cn.
  repeat split; try done.
  unfold ID, bind, load_conn, ret. by rewrite Hp, Hi.
Qed.

(** X10.  [NewTxStateChange] on a live connection returns a detector
    nobody held before, bound to that connection, holding what the
    engine reports at that moment and not yet done; it takes no lock and
    writes nothing else: connections (start time included), sessions,
    clock and the other detectors are as before. *)
Theorem NewTxStateChange_captures w p cn e :
  conns w !! p = Some cn ->
  engines w !! db cn = Some e ->
  exists t w',
    NewTxStateChange p w = (Returned t, w') /\
    changes w !! t = None /\
    changes w' !! t =
      Some {| c := p; tx := sdb.TransactionActive e; done := false |} /\
    (forall t', t' <> t -> changes w' !! t' = changes w !! t') /\
    conns w' = conns w /\ engines w' = engines w /\ clock w' = clock w.
Proof.
  intros Hcn He.
  destruct (NewTxStateChange_alloc w p cn e Hcn He) as [Hfresh Hnew].
  do 2 eexists. split; [exact Hnew |]. split; [exact Hfresh |].
  cbn -[lookup insert]. rewrite lookup_insert_eq. repeat split.
  intros t' Hne. by rewrite lookup_insert_ne.
Qed.

Lemma NewTxStateChange_captures_witness :
  exists t w',
    NewTxStateChange 1%positive sample_world = (Returned t, w') /\
    changes sample_world !! t = None /\
    changes w' !! t = Some {| c := 1%positive; tx := true; done := false |} /\
    (forall t', t' <> t -> changes w' !! t' = changes sample_world !! t') /\
    conns w' = conns sample_world /\ engines w' = engines sample_world /\
    clock w' = clock sample_world.
Proof.
  apply (NewTxStateChange_captures sample_world 1%positive sample_conn
           sample_engine); reflexivity.
Defined.

(** While only the engine and the clock move, connections and detectors
    stay, the clock ends at its last reading and each session reports
    what it was last set to. *)
Lemma run_events_statements body : forall w,
  forallb statement_event body = true ->
  exists w',
    run_events body w = (Returned tt, w') /\
    conns w' = conns w /\
    changes w' = changes w /\
    clock w' = clock_after body (clock w) /\
    forall d e, engines w !! d = Some e ->
      exists e', engines w' !! d = Some e' /\
                 sdb.TransactionActive e' =
                   engine_after body d (sdb.TransactionActive e).
Proof.
  induction body as [|ev body IH]; intros w Hall.
  - exists w. repeat split. intros d e He. by exists e.
  - cbn in Hall. apply andb_true_iff in Hall as [Hev Hall].
    destruct ev as [p|d' active|now|t]; try discriminate; cbn -[alter].
    + destruct (IH (set_engines (alter (with_txActive active) d') w) Hall)
        as (w' & Hrun & Hc & Hd & Hk & He).
      exists w'. unfold bind. rewrite Hrun. repeat split; try done.
      intros d e Hde. cbn -[alter] in He.
      destruct (decide (d' = d)) as [->|Hne].
      * apply (He d (with_txActive active e)).
        by rewrite lookup_alter_eq, Hde.
      * apply He. by rewrite lookup_alter_ne.
    + destruct (IH (set_clock now w) Hall) as (w' & Hrun & Hc & Hd & Hk & He).
      exists w'. unfold bind. rewrite Hrun. by repeat split.
Qed.

(** X11.  An operation as a whole (a detector is built, the engine and
    the clock move, the detector is reconciled) returns and leaves on
    the connection the start time of the outcome table, read with what
    the engine reported when the detector was built, what it reports
    after the operation's statements, and the last clock reading. *)
Theorem operation_outcome w p cn e body :
  conns w !! p = Some cn ->
  engines w !! db cn = Some e ->
  txStateMu cn = false ->
  forallb statement_event body = true ->
  exists w',
    operation p body w = (Returned tt, w') /\
    txStartedAt <$> conns w' !! p =
      Some (outcome_table
              (sdb.TransactionActive e)
              (engine_after body (db cn) (sdb.TransactionActive e))
              (txStartedAt cn) (clock_after body (clock w))) /\
    forall q, q <> p -> conns w' !! q = conns w !! q.
Proof.
  intros Hcn He Hmu Hbody.
  destruct (NewTxStateChange_alloc w p cn e Hcn He) as [_ Hnew].
  set (t := fresh (dom (changes w))) in *.
  set (ts := {| c := p; tx := sdb.TransactionActive e; done := false |}) in *.
  destruct (run_events_statements body (set_changes <[t := ts]> w) Hbody)
    as (w2 & Hrun & Hc2 & Hd2 & Hk2 & He2).
  destruct (He2 (db cn) e He) as (e2 & He2' & Hact).
  assert (Hrec : reconcilable w2 t ts cn e2).
  { split.
    - rewrite Hd2. cbn -[lookup insert]. by rewrite lookup_insert_eq.
    - rewrite Hc2. exact Hcn.
    - exact He2'. }
  pose proof (CheckAndSet_fresh w2 t ts cn e2 Hrec Hmu eq_refl) as Hcs.
  eexists. split.
  { unfold operation, bind. rewrite Hnew, Hrun. exact Hcs. }
  cbn -[lookup insert]. split.
  - rewrite lookup_insert_eq. cbn. by rewrite Hact, Hk2.
  - intros q Hq. rewrite lookup_insert_ne by done. by rewrite Hc2.
Qed.

Lemma operation_outcome_witness :
  exists w',
    operation 1%positive
      [EvEngine 1%positive true; EvClock (time.mkTime 63000000005 0)]
      fresh_world = (Returned tt, w') /\
    txStartedAt <$> conns w' !! 1%positive =
      Some (outcome_table false true time.zero (time.mkTime 63000000005 0)) /\
    forall q, q <> 1%positive -> conns w' !! q = conns fresh_world !! q.
Proof.
  apply (operation_outcome fresh_world 1%positive
           {| db := 1%positive; store := 1%positive; id := 7%N;
              timeMu := false;
              createdAt := time.mkTime 63000000000 0;
              lastUsedAt := time.zero; txStateMu := false;
              txStartedAt := time.zero |} idle_engine);
    reflexivity.
Defined.

(** X12.  Reconciliations on two different connections do not interfere:
    taken in either order, two first calls of [CheckAndSet] both return
    and end in the same world. *)
Theorem CheckAndSet_commute w t1 ts1 cn1 e1 t2 ts2 cn2 e2 :
  reconcilable w t1 ts1 cn1 e1 ->
  reconcilable w t2 ts2 cn2 e2 ->
  c ts1 <> c ts2 ->
  txStateMu cn1 = false -> done ts1 = false ->
  txStateMu cn2 = false -> done ts2 = false ->
  exists w',
    (CheckAndSet t1 ;;; CheckAndSet t2) w = (Returned tt, w') /\
    (CheckAndSet t2 ;;; CheckAndSet t1) w = (Returned tt, w').
Proof.
  intros H1 H2 Hne Hmu1 Hd1 Hmu2 Hd2.
  assert (Ht : t1 <> t2).
  { intros ->. destruct H1 as [Ha _ _], H2 as [Hb _ _]. congruence. }
  pose proof (CheckAndSet_fresh w t1 ts1 cn1 e1 H1 Hmu1 Hd1) as Hr1.
  pose proof (CheckAndSet_fresh w t2 ts2 cn2 e2 H2 Hmu2 Hd2) as Hr2.
  destruct H1 as [Hts1 Hcn1 He1], H2 as [Hts2 Hcn2 He2].
  unfold bind. rewrite Hr1, Hr2.
  erewrite (CheckAndSet_fresh _ t2 ts2 cn2 e2); try done.
  2: { split; cbn -[lookup insert]; [by rewrite lookup_insert_ne
                                    | by rewrite lookup_insert_ne | done]. }
  erewrite (CheckAndSet_fresh _ t1 ts1 cn1 e1); try done.
  2: { split; cbn -[lookup insert]; [by rewrite lookup_insert_ne
                                    | by rewrite lookup_insert_ne | done]. }
  eexists. split; [reflexivity |].
  unfold set_changes, set_conns. cbn -[lookup insert]. f_equal. f_equal.
  - by apply insert_insert_ne.
  - by apply insert_insert_ne.
Qed.

Lemma CheckAndSet_commute_witness :
  exists w',
    (CheckAndSet 1%positive ;;; CheckAndSet 2%positive) two_connections
      = (Returned tt, w') /\
    (CheckAndSet 2%positive ;;; CheckAndSet 1%positive) two_connections
      = (Returned tt, w').
Proof.
  apply (CheckAndSet_commute two_connections
           1%positive sample_change sample_conn sample_engine
           2%positive second_change second_conn idle_engine);
    [split; reflexivity | split; reflexivity | discriminate
    | reflexivity ..].
Defined.

Section StatusAfter.

Variable enabledFromBool : bool -> string.
Variable json_Marshal : gmap string value -> list Byte.byte * error.

Local Abbreviation status := (MarshalJSON enabledFromBool json_Marshal).

(** The transaction-start key of the status: present with the start
    time exactly when the start time is set. *)
Lemma MarshalJSON_tx_started_at w p cn e :
  conns w !! p = Some cn ->
  engines w !! db cn = Some e ->
  sdb.fkErr e = None ->
  exists m : gmap string value,
    status p w = (Returned (json_Marshal m), w) /\
    m !! "tx_started_at" =
      (if time.IsZero (txStartedAt cn) then None
       else Some (VTime (txStartedAt cn))) /\
    m !! "id" = Some (VUint64 (id cn)) /\
    m !! "created_at" = Some (VTime (createdAt cn)).
Proof.
  intros Hcn He Herr.
  unfold MarshalJSON, bind, load_conn, load_engine, ret.
  rewrite Hcn, He. unfold sdb.FKConstraints. rewrite Herr.
  eexists. split; [reflexivity |].
  destruct (time.IsZero (txStartedAt cn)), (time.IsZero (lastUsedAt cn));
    cbn -[lookup insert]; repeat split; by simplify_map_eq.
Qed.

(** X13.  The status serialized right after a reconciliation shows its
    result: the transaction-start key carries the start time of the
    outcome table when that is set and is absent when it is unset, while
    the id and the creation time are those from before the call;
    serializing writes nothing. *)
Theorem status_after_CheckAndSet w t ts cn e :
  reconcilable w t ts cn e ->
  txStateMu cn = false ->
  done ts = false ->
  sdb.fkErr e = None ->
  exists w' (m : gmap string value),
    CheckAndSet t w = (Returned tt, w') /\
    status (c ts) w' = (Returned (json_Marshal m), w') /\
    m !! "tx_started_at" =
      (let v := outcome_table (tx ts) (sdb.TransactionActive e)
                              (txStartedAt cn) (clock w) in
       if time.IsZero v then None else Some (VTime v)) /\
    m !! "id" = Some (VUint64 (id cn)) /\
    m !! "created_at" = Some (VTime (createdAt cn)).
Proof.
  intros Hrec Hmu Hd Herr.
  pose proof (CheckAndSet_fresh w t ts cn e Hrec Hmu Hd) as Hcs.
  destruct Hrec as [Hts Hcn He].
  set (v := outcome_table (tx ts) (sdb.TransactionActive e)
                          (txStartedAt cn) (clock w)) in *.
  set (w' := set_changes <[t := with_done true ts]>
               (set_conns <[c ts := with_txStartedAt v cn]> w)) in *.
  destruct (MarshalJSON_tx_started_at w' (c ts) (with_txStartedAt v cn) e)
    as (m & Hrun & Htx & Hid & Hca); try done.
  { cbn -[lookup insert]. by rewrite lookup_insert_eq. }
  by exists w', m.
Qed.

End StatusAfter.

Lemma status_after_CheckAndSet_witness :
  exists w' (m : gmap string value),
    CheckAndSet 1%positive sample_world = (Returned tt, w') /\
    MarshalJSON (fun b : bool => if b then "enabled" else "disabled")
      (fun _ => ([], None)) 1%positive w' = (Returned ([], None), w') /\
    m !! "tx_started_at" = Some (VTime (clock sample_world)) /\
    m !! "id" = Some (VUint64 7) /\
    m !! "created_at" = Some (VTime (createdAt sample_conn)).
Proof.
  apply (status_after_CheckAndSet
           (fun b : bool => if b then "enabled" else "disabled")
           (fun _ => ([], None)) sample_world 1%positive sample_change
           sample_conn sample_engine);
    [split; reflexivity | reflexivity ..].
Defined.

(** X14.  [NewConnection] never fails and never reuses a handle: two
    calls in a row return different connections, the second leaves the
    first as it was made, and neither touches the connections that
    existed, the sessions, the detectors or the clock. *)
Theorem NewConnection_distinct w d1 s1 i1 d2 s2 i2 :
  exists p1 w1 p2 w2 cn1,
    NewConnection d1 s1 i1 w = (Returned p1, w1) /\
    NewConnection d2 s2 i2 w1 = (Returned p2, w2) /\
    p1 <> p2 /\
    conns w2 !! p1 = Some cn1 /\ id cn1 = i1 /\ db cn1 = d1 /\
    store cn1 = s1 /\ txStateMu cn1 = false /\
    (forall q, is_Some (conns w !! q) -> conns w2 !! q = conns w !! q) /\
    engines w2 = engines w /\ changes w2 = changes w /\ clock w2 = clock w.
Proof.
  destruct (NewConnection_alloc w d1 s1 i1) as [Hf1 Hn1].
  set (p1 := fresh (dom (conns w))) in *.
  match type of Hn1 with _ = (_, ?x) => set (w1 := x) in * end.
  destruct (NewConnection_alloc w1 d2 s2 i2) as [Hf2 Hn2].
  set (p2 := fresh (dom (conns w1))) in *.
  assert (Hne : p1 <> p2).
  { intros Heq. rewrite <- Heq in Hf2. unfold w1 in Hf2.
    cbn -[lookup insert] in Hf2. by rewrite lookup_insert_eq in Hf2. }
  do 5 eexists. split; [exact Hn1 |]. split; [exact Hn2 |].
  split; [exact Hne |]. cbn -[lookup insert].
  rewrite lookup_insert_ne by done. rewrite lookup_insert_eq.
  repeat split.
  intros q [cq Hq].
  rewrite !lookup_insert_ne; [done | congruence |].
  intros <-. unfold w1 in Hf2. cbn -[lookup insert] in Hf2.
  rewrite lookup_insert_ne in Hf2 by done. congruence.
Qed.

(** * Further properties of reconciliations side by side *)

Lemma thread_step_rank w t k w' k' :
  thread_step w t k = Some (w', k') -> (pc_rank k' < pc_rank k)%nat.
Proof.
  intros Hstep. unfold thread_step in Hstep.
  destruct k; try discriminate;
    (destruct (changes w !! t) as [ts|]; [|simplify_eq; cbn; lia]);
    (destruct (conns w !! c ts) as [cn|]; [|simplify_eq; cbn; lia]);
    repeat case_match; simplify_eq; cbn; lia.
Qed.

Lemma sum_list_insert (l : list nat) (i x y : nat) :
  l !! i = Some x ->
  (sum_list (<[i := y]> l) + x = sum_list l + y)%nat.
Proof.
  revert i. induction l as [|a l IH]; intros [|i] Hi; simplify_eq/=.
  - lia.
  - specialize (IH i Hi). lia.
Qed.

(** X15.  Reconciliations terminate: each step of a goroutine lowers the
    steps it may still take, at most seven from [Lock] and at most six
    once inside the critical section, so each step of the process by a
    goroutine lowers the work left for all of them; the surroundings add
    none. *)
Theorem reconciliation_steps_bounded s i t k w' k' :
  threads s !! i = Some (t, k) ->
  thread_step (world s) t k = Some (w', k') ->
  (pc_rank k' < pc_rank k <= 7)%nat /\
  (in_critical k = true -> pc_rank k <= 6)%nat /\
  (work {| world := w'; threads := <[i := (t, k')]> (threads s) |}
   < work s)%nat.
Proof.
  intros Hi Hstep. pose proof (thread_step_rank _ _ _ _ _ Hstep) as Hlt.
  split; [split; [done | destruct k; cbn; lia] |].
  split; [destruct k; cbn; (discriminate || lia) |].
  unfold work; cbn.
  rewrite list_fmap_insert.
  pose proof (sum_list_insert (pc_rank ∘ snd <$> threads s) i
                (pc_rank k) (pc_rank k')) as Hsum.
  rewrite list_lookup_fmap, Hi in Hsum. specialize (Hsum eq_refl).
  cbn in Hsum |- *. lia.
Qed.

Lemma sample_system_locked_reachable :
  rtc sys_step sample_system sample_system_locked.
Proof.
  apply (rtc_l _ _ {| world := sample_world;
                      threads := [(1%positive, AtLock)] |}).
  - exact (step_go sample_system 1%positive).
  - apply (rtc_l _ _ sample_system_locked); [|apply rtc_refl].
    exact (step_thread
             {| world := sample_world; threads := [(1%positive, AtLock)] |}
             0 1%positive AtLock _ AtDone eq_refl eq_refl).
Qed.

Lemma reconciliation_steps_bounded_witness :
  (pc_rank AtEngine < pc_rank AtDone <= 7)%nat /\
  (in_critical AtDone = true -> pc_rank AtDone <= 6)%nat /\
  (work {| world := world sample_system_locked;
           threads := <[0%nat := (1%positive, AtEngine)]>
                        (threads sample_system_locked) |}
   < work sample_system_locked)%nat.
Proof.
  apply (reconciliation_steps_bounded sample_system_locked 0 1%positive
           AtDone (world sample_system_locked) AtEngine); reflexivity.
Defined.

(** What a step does to the done flags and to who is past the test. *)
Lemma thread_step_done_of w t k w' k' :
  thread_step w t k = Some (w', k') ->
  (forall t', done_of w t' = Some true -> done_of w' t' = Some true) /\
  (candidate k' = true ->
   candidate k = true \/ (k = AtDone /\ done_of w t = Some false)) /\
  (marked k' = true -> marked k = true \/ done_of w' t = Some true).
Proof.
  intros Hstep. unfold thread_step in Hstep.
  destruct (changes w !! t) as [ts|] eqn:Hts.
  2: { destruct k; simplify_eq; by repeat split. }
  destruct (conns w !! c ts) as [cn|] eqn:Hcn.
  2: { destruct k; simplify_eq; by repeat split. }
  destruct k; try discriminate.
  - (* AtLock *) destruct (txStateMu cn); simplify_eq. by repeat split.
  - (* AtDone *)
    destruct (done ts) eqn:Hd; simplify_eq; repeat split; try done.
    intros _. right. split; [done |]. unfold done_of.
    rewrite Hts. cbn. by rewrite Hd.
  - (* AtEngine *)
    repeat case_match; simplify_eq; repeat split; auto; done.
  - (* AtStarted *)
    repeat case_match; simplify_eq; repeat split; auto; done.
  - (* AtAssign *) simplify_eq. repeat split; auto; done.
  - (* AtSetDone *)
    simplify_eq. repeat split.
    + intros t' Ht'. unfold done_of in *. cbn -[lookup insert].
      destruct (decide (t' = t)) as [->|Hne].
      * by rewrite lookup_insert_eq.
      * by rewrite lookup_insert_ne.
    + destruct o as [[]| |]; auto.
    + intros _. right. unfold done_of. cbn -[lookup insert].
      by rewrite lookup_insert_eq.
  - (* AtUnlock *)
    destruct (txStateMu cn); simplify_eq; repeat split; auto; done.
Qed.

Lemma env_event_done_of ev w w' :
  env_event ev = true ->
  exec_event ev w = (Returned tt, w') ->
  forall t, is_Some (done_of w t) -> done_of w' t = done_of w t.
Proof.
  intros Hev Hexec. destruct ev as [p|d active|now|t0]; try discriminate;
    cbn in Hexec.
  - unfold bind, NewTxStateChange, bind, load_conn, load_engine, ret in Hexec.
    destruct (conns w !! p) as [cn|]; [|discriminate].
    destruct (engines w !! db cn) as [e|]; [|discriminate].
    simplify_eq. intros t Ht. unfold done_of in *. cbn -[lookup insert].
    rewrite lookup_insert_ne; [done |]. intros <-.
    rewrite fmap_is_Some in Ht. apply elem_of_dom in Ht.
    by apply is_fresh in Ht.
  - by simplify_eq.
  - by simplify_eq.
Qed.

Lemma oneshot_thread_step s i t k w' k' :
  coherent s -> oneshot s ->
  threads s !! i = Some (t, k) ->
  thread_step (world s) t k = Some (w', k') ->
  oneshot {| world := w'; threads := <[i := (t, k')]> (threads s) |}.
Proof.
  intros Hcoh Hos Hi Hstep.
  destruct (thread_step_done_of _ _ _ _ _ Hstep) as (Hmono & Hcand & Hmark).
  assert (Hlen : (i < length (threads s))%nat) by (by eapply lookup_lt_Some).
  assert (Hnew : forall j kj, j <> i -> threads s !! j = Some (t, kj) ->
            candidate k' = true -> candidate kj = true -> False).
  { intros j kj Hne Hj Hk' Hkj.
    destruct (Hcand Hk') as [Hk|[-> Hfalse]].
    - apply Hne. symmetry. eapply (os_single s Hos i j); eauto.
    - destruct (in_critical kj) eqn:Hcrit.
      + destruct (coh_alloc s Hcoh i t AtDone Hi eq_refl) as [p Hp].
        apply Hne. symmetry. apply (coh_alone s Hcoh i j p).
        * by exists t, AtDone.
        * by exists t, kj.
      + assert (Hm : marked kj = true).
        { destruct kj as [| | | | |o|o|[[]| |]]; try discriminate; done. }
        pose proof (os_marked s Hos j t kj Hj Hm). congruence. }
  split.
  - intros j1 j2 t0 k1 k2 H1 H2 Hc1 Hc2. cbn in *.
    destruct (decide (j1 = i)) as [->|Hne1], (decide (j2 = i)) as [->|Hne2];
      try done.
    + rewrite list_lookup_insert_eq in H1 by done.
      rewrite list_lookup_insert_ne in H2 by done. simplify_eq.
      exfalso. eauto.
    + rewrite list_lookup_insert_ne in H1 by done.
      rewrite list_lookup_insert_eq in H2 by done. simplify_eq.
      exfalso. eauto.
    + rewrite list_lookup_insert_ne in H1, H2 by done.
      eapply (os_single s Hos); eauto.
  - intros j t0 k0 Hj Hm. cbn in *.
    destruct (decide (j = i)) as [->|Hne].
    + rewrite list_lookup_insert_eq in Hj by done. simplify_eq.
      destruct (Hmark Hm) as [Hk|Hd]; [|done].
      apply Hmono. eapply (os_marked s Hos); eauto.
    + rewrite list_lookup_insert_ne in Hj by done.
      apply Hmono. eapply (os_marked s Hos); eauto.
Qed.

Lemma oneshot_step s s' :
  coherent s -> oneshot s -> sys_step s s' -> oneshot s'.
Proof.
  intros Hcoh Hos Hstep.
  destruct Hstep as [s i t k w' k' Hi Hth|s ev w' Hev Hex|s t].
  - by eapply oneshot_thread_step.
  - split; cbn.
    + apply (os_single s Hos).
    + intros i t k Hi Hm.
      pose proof (os_marked s Hos i t k Hi Hm) as Hd.
      rewrite (env_event_done_of ev (world s) w' Hev Hex); [done |].
      by rewrite Hd.
  - assert (Hold : forall (j : nat) t0 k,
              (threads s ++ [(t, AtLock)])%list !! j = Some (t0, k) ->
              candidate k = true \/ marked k = true ->
              threads s !! j = Some (t0, k)).
    { intros j t0 k Hj Hk.
      destruct (decide (j < length (threads s))%nat) as [Hlt|Hge].
      - by rewrite lookup_app_l in Hj.
      - rewrite lookup_app_r in Hj by lia.
        destruct (j - length (threads s))%nat; cbn in Hj; simplify_eq.
        by destruct Hk. }
    split; cbn.
    + intros i j t0 ki kj Hi Hj Hci Hcj.
      eapply (os_single s Hos); eauto.
    + intros i t0 k Hi Hm. eapply (os_marked s Hos); eauto.
Qed.

Lemma oneshot_reachable s0 s :
  initial s0 -> rtc sys_step s0 s -> coherent s /\ oneshot s.
Proof.
  intros Hinit Hrun.
  assert (H0 : coherent s0 /\ oneshot s0).
  { split; [by apply coherent_initial |].
    destruct Hinit as [Hnil _].
    split; intros i; intros; by rewrite Hnil in *. }
  clear Hinit. induction Hrun as [|s1 s2 s3 Hstep _ IH]; [done |].
  destruct H0 as [Hcoh Hos]. apply IH. split.
  - by eapply coherent_step.
  - by eapply oneshot_step.
Qed.

(** X16.  A detector is single-use under concurrency too: in every state
    the process can reach, of all the goroutines that called
    [CheckAndSet] on one detector at most one has returned, and the
    detector of a goroutine that has returned is done. *)
Theorem CheckAndSet_returns_once s0 s :
  initial s0 ->
  rtc sys_step s0 s ->
  (forall i j t,
      threads s !! i = Some (t, Finished (Returned tt)) ->
      threads s !! j = Some (t, Finished (Returned tt)) -> i = j) /\
  (forall i t,
      threads s !! i = Some (t, Finished (Returned tt)) ->
      done_of (world s) t = Some true).
Proof.
  intros Hinit Hrun.
  destruct (oneshot_reachable s0 s Hinit Hrun) as [_ Hos].
  split.
  - intros i j t Hi Hj. by eapply (os_single s Hos).
  - intros i t Hi. by eapply (os_marked s Hos).
Qed.

(** A goroutine left alone for a while is one way the process can go. *)
Lemma run_thread_rtc n : forall s i t k w' k',
  threads s !! i = Some (t, k) ->
  run_thread n (world s) t k = (w', k') ->
  rtc sys_step s {| world := w'; threads := <[i := (t, k')]> (threads s) |}.
Proof.
  assert (Hstay : forall s i t k, threads s !! i = Some (t, k) ->
            rtc sys_step s
              {| world := world s; threads := <[i := (t, k)]> (threads s) |}).
  { intros [w0 ths] i t k Hi. cbn in *. by rewrite list_insert_id. }
  induction n as [|n IH]; intros s i t k w' k' Hi Hrun; cbn in Hrun.
  - simplify_eq. by apply Hstay.
  - destruct (thread_step (world s) t k) as [[w1 k1]|] eqn:Hstep.
    + eapply rtc_l; [by eapply (step_thread s i t k w1 k1) |].
      assert (Hlen : (i < length (threads s))%nat)
        by (by eapply lookup_lt_Some).
      pose proof (IH {| world := w1; threads := <[i := (t, k1)]> (threads s) |}
                     i t k1 w' k') as Hrest.
      cbn in Hrest. rewrite list_insert_insert_eq in Hrest.
      apply Hrest; [by rewrite list_lookup_insert_eq | done].
    + simplify_eq. by apply Hstay.
Qed.

Lemma sample_system_reused_reachable :
  rtc sys_step sample_system sample_system_reused.
Proof.
  set (w1 := snd (CheckAndSet 1%positive sample_world)).
  set (s1 := {| world := sample_world; threads := [(1%positive, AtLock)] |}).
  set (s2 := {| world := w1;
                threads := [(1%positive, Finished (Returned tt))] |}).
  set (s3 := {| world := w1;
                threads := [(1%positive, Finished (Returned tt));
                            (1%positive, AtLock)] |}).
  apply (rtc_l _ _ s1); [exact (step_go sample_system 1%positive) |].
  apply (@transitivity _ (rtc sys_step) _ _ s2).
  { exact (run_thread_rtc 7 s1 0 1%positive AtLock w1
             (Finished (Returned tt)) eq_refl eq_refl). }
  apply (rtc_l _ _ s3); [exact (step_go s2 1%positive) |].
  exact (run_thread_rtc 7 s3 1 1%positive AtLock w1
           (Finished (Panicked "CheckAndSet should only be called once"))
           eq_refl eq_refl).
Qed.

Lemma CheckAndSet_returns_once_witness :
  (forall i j t,
      threads sample_system_reused !! i = Some (t, Finished (Returned tt)) ->
      threads sample_system_reused !! j = Some (t, Finished (Returned tt)) ->
      i = j) /\
  (forall i t,
      threads sample_system_reused !! i = Some (t, Finished (Returned tt)) ->
      done_of (world sample_system_reused) t = Some true).
Proof.
  apply (CheckAndSet_returns_once sample_system sample_system_reused).
  - split; [reflexivity |].
    intros p cn Hp. change (conns (world sample_system))
      with ({[ 1%positive := sample_conn ]} : gmap addr Connection) in Hp.
    apply lookup_singleton_Some in Hp as [_ <-]. reflexivity.
  - exact sample_system_reused_reachable.
Defined.

(** X17.  A detector that witnessed a change always leaves the start
    time in step with the engine, whatever start time it finds, other
    detectors overlapping or not: after the first reconciliation of a
    detector whose two observations differ, under a clock off the zero
    time, the start time is set exactly when the engine reported a
    transaction.  Only a detector that saw no change can leave a start
    time out of step. *)
Theorem CheckAndSet_witnessed_change_agrees w t ts cn e :
  reconcilable w t ts cn e ->
  txStateMu cn = false ->
  done ts = false ->
  tx ts <> sdb.TransactionActive e ->
  time.IsZero (clock w) = false ->
  exists w' cn',
    CheckAndSet t w = (Returned tt, w') /\
    conns w' !! c ts = Some cn' /\
    time.IsZero (txStartedAt cn') = negb (sdb.TransactionActive e).
Proof.
  intros Hrec Hmu Hd Hdiff Hclk.
  do 2 eexists. split; [by apply CheckAndSet_fresh |].
  cbn -[lookup insert]. rewrite lookup_insert_eq. split; [reflexivity |].
  cbn. unfold outcome_table.
  destruct (tx ts), (sdb.TransactionActive e); try done;
    destruct (time.IsZero (txStartedAt cn)) eqn:Hz; cbn; done.
Qed.

Lemma CheckAndSet_witnessed_change_agrees_witness :
  exists w' cn',
    CheckAndSet 1%positive sample_world_started = (Returned tt, w') /\
    conns w' !! 1%positive = Some cn' /\
    time.IsZero (txStartedAt cn') = negb true.
Proof.
  apply (CheckAndSet_witnessed_change_agrees sample_world_started 1%positive
           sample_change (with_txStartedAt sample_started sample_conn)
           sample_engine);
    [split; reflexivity | reflexivity | reflexivity | discriminate
    | reflexivity].
Defined.
